(** * pysent: a shallow embedding of [main.py]

    The slide-deck program has three parts: the deck parser ([parse]), the
    presentation controller ([Presentation]) and two layout routines
    ([draw_centered_image_with_padding], [draw_centered_text]).  Each is
    embedded below the way the Python source writes it:

    - Python [int] is [Z]; Python [float] is IEEE-754 binary64, taken from the
      Standard Library's bit-level specification [spec_float];
    - Python [str] is [string], each character read as a code point below 256;
    - a raised exception is the [Raise] branch of [outcome];
    - what pygame does (loading and scaling images, measuring text) is the
      interface [Pygame]. *)

From Stdlib Require Import ZArith List String Ascii Bool Lia.
From Stdlib Require Import SpecFloat FloatOps FloatAxioms.
Import ListNotations.

#[local] Open Scope Z_scope.

(** ** The Python runtime the program relies on *)

Module Py.

(** The exceptions the embedded code can raise.  [BackendError] stands for
    whatever pygame raises on its own ([pygame.error], [FileNotFoundError]). *)
Inductive exc : Set :=
| IndexError
| ValueError
| ZeroDivisionError
| OverflowError
| BackendError.

Inductive outcome (A : Type) : Type :=
| Ok (a : A)
| Raise (e : exc).

Arguments Ok {A} a.
Arguments Raise {A} e.

Definition bind {A B : Type} (m : outcome A) (k : A -> outcome B) : outcome B :=
  match m with
  | Ok a => k a
  | Raise e => Raise e
  end.

(** *** Lists *)

(** [l[i]]: a negative index counts from the end, anything outside
    [-len(l) .. len(l)-1] raises [IndexError]. *)
Definition getitem {A : Type} (l : list A) (i : Z) : outcome A :=
  let n := Z.of_nat (List.length l) in
  let j := if i <? 0 then n + i else i in
  if (0 <=? j) && (j <? n)
  then match nth_error l (Z.to_nat j) with
       | Some a => Ok a
       | None => Raise IndexError
       end
  else Raise IndexError.

(** [sum(l)] over integers. *)
Definition sum (l : list Z) : Z := fold_left Z.add l 0.

(** [max(l)]: [ValueError] on an empty sequence. *)
Definition max (l : list Z) : outcome Z :=
  match l with
  | [] => Raise ValueError
  | x :: xs => Ok (fold_left Z.max xs x)
  end.

(** *** Strings *)

(** [s.startswith(p)] *)
Definition startswith (s p : string) : bool := String.prefix p s.

(** [s.removeprefix(p)] *)
Definition removeprefix (s p : string) : string :=
  if startswith s p
  then String.substring (String.length p) (String.length s - String.length p) s
  else s.

(** [s.split(sep)] for a non-empty separator: the pieces between the
    occurrences of [sep], found from left to right without overlap.
    [skip] counts the characters of a matched separator still to consume,
    [cur] is the piece being read. *)
Fixpoint split_from (sep : string) (skip : nat) (cur s : string) : list string :=
  match s with
  | EmptyString => [cur]
  | String c s' =>
      match skip with
      | S k => split_from sep k cur s'
      | O =>
          if String.prefix sep s
          then cur :: split_from sep (String.length sep - 1) EmptyString s'
          else split_from sep O (cur ++ String c EmptyString)%string s'
      end
  end.

Definition split (s sep : string) : list string :=
  split_from sep O EmptyString s.

(** [c.isspace()] on code points below 256: tab, line feed, vertical tab,
    form feed, carriage return, the four separators 28..31, space,
    next-line (133) and no-break space (160). *)
Definition isspace (c : ascii) : bool :=
  let n := nat_of_ascii c in
  ((9 <=? n) && (n <=? 13) || (28 <=? n) && (n <=? 32)
   || (n =? 133) || (n =? 160))%nat.

(** [s.split()] with no argument: the maximal runs of non-whitespace.
    [cur] is the run being read, if any. *)
Fixpoint split_ws_from (cur : option string) (s : string) : list string :=
  match s with
  | EmptyString =>
      match cur with
      | Some w => [w]
      | None => []
      end
  | String c s' =>
      if isspace c
      then match cur with
           | Some w => w :: split_ws_from None s'
           | None => split_ws_from None s'
           end
      else match cur with
           | Some w => split_ws_from (Some (w ++ String c EmptyString)%string) s'
           | None => split_ws_from (Some (String c EmptyString)) s'
           end
  end.

Definition split_ws (s : string) : list string := split_ws_from None s.

(** *** Numbers *)

(** A value that is an [int] at some call sites and a [float] at others. *)
Inductive num : Set :=
| Int (z : Z)
| Float (f : spec_float).

(** [float(z)]: the nearest binary64, [OverflowError] beyond its range. *)
Definition float_of_int (z : Z) : outcome spec_float :=
  match binary_normalize prec emax z 0 false with
  | S754_infinity _ => Raise OverflowError
  | f => Ok f
  end.

(** [int(f)]: truncation toward zero; [OverflowError] on an infinity,
    [ValueError] on a NaN. *)
Definition int_of_float (f : spec_float) : outcome Z :=
  match f with
  | S754_nan => Raise ValueError
  | S754_infinity _ => Raise OverflowError
  | S754_zero _ => Ok 0
  | S754_finite s m e =>
      let a := if 0 <=? e then Z.shiftl (Zpos m) e else Z.shiftr (Zpos m) (- e) in
      Ok (if s then - a else a)
  end.

(** [x / y] on floats: [ZeroDivisionError] when [y] is a zero. *)
Definition float_truediv (x y : spec_float) : outcome spec_float :=
  match y with
  | S754_zero _ => Raise ZeroDivisionError
  | _ => Ok (SF64div x y)
  end.

(** [a / b] on integers: the quotient as a float (both operands are exact
    as floats below 2^53, which every pygame size is). *)
Definition int_truediv (a b : Z) : outcome spec_float :=
  if b =? 0 then Raise ZeroDivisionError
  else bind (float_of_int a) (fun x =>
       bind (float_of_int b) (fun y =>
       float_truediv x y)).

(** [z * f] and [z - f] for an integer [z] and a float [f]: the integer is
    converted first. *)
Definition int_mul_float (z : Z) (f : spec_float) : outcome spec_float :=
  bind (float_of_int z) (fun x => Ok (SF64mul x f)).

Definition int_sub_float (z : Z) (f : spec_float) : outcome spec_float :=
  bind (float_of_int z) (fun x => Ok (SF64sub x f)).

(** [x > y] on floats. *)
Definition float_gt (x y : spec_float) : bool := SFltb y x.

(** The exact order between an integer and a float, as Python's mixed
    comparisons compute it; [None] when the float is a NaN. *)
Definition int_float_compare (z : Z) (f : spec_float) : option comparison :=
  match f with
  | S754_nan => None
  | S754_infinity false => Some Lt
  | S754_infinity true => Some Gt
  | S754_zero _ => Some (z ?= 0)
  | S754_finite s m e =>
      let v := if s then Zneg m else Zpos m in
      if 0 <=? e then Some (z ?= v * 2 ^ e) else Some (z * 2 ^ (- e) ?= v)
  end.

(** [z > f] for an integer [z] and a float [f]. *)
Definition int_gt_float (z : Z) (f : spec_float) : bool :=
  match int_float_compare z f with
  | Some Gt => true
  | _ => false
  end.

(** [a == b] across [int] and [float]. *)
Definition num_eq (a b : num) : bool :=
  match a, b with
  | Int x, Int y => x =? y
  | Float x, Float y => SFeqb x y
  | Int x, Float y | Float y, Int x =>
      match int_float_compare x y with
      | Some Eq => true
      | _ => false
      end
  end.

(** The literal [0.1]: 7205759403792794 * 2^-56. *)
Definition f0_1 : spec_float := S754_finite false 7205759403792794 (-56).

(** [for a in l: s = body(s, a)], stopping at the first exception. *)
Fixpoint for_in {A S : Type} (l : list A) (body : S -> A -> outcome S) (s : S)
  : outcome S :=
  match l with
  | [] => Ok s
  | a :: l' => bind (body s a) (for_in l' body)
  end.

(** The line feed, ["\n"]. *)
Definition LF : string := String (ascii_of_nat 10) EmptyString.

End Py.

Import Py.

Notation "x <- m ;; k" := (Py.bind m (fun x => k))
  (at level 61, m at next level, right associativity).

(** ** What pygame provides *)

(** [pathlib.Path(s)] *)
Inductive Path : Set := mkPath (s : string).

(** The calls into pygame: [pygame.image.load], [Surface.get_size],
    [pygame.transform.scale] and, for the default font at a given size,
    [Font.size(text)], which returns the rendered (width, height). *)
Class Pygame : Type := {
  Surface : Type;
  image_load : Path -> outcome Surface;
  get_size : Surface -> Z * Z;
  transform_scale : Surface -> num * num -> outcome Surface;
  font_size : Z -> string -> Z * Z
}.

(** ** class Slide *)

Module Slide.
Section WithPygame.
Context {pg : Pygame}.

Record t : Type := mk { _lines : list string; _image : option Surface }.

Definition init : t := mk [] None.

Definition set_image (self : t) (image_path : Path) : outcome t :=
  img <- image_load image_path ;;
  Ok (mk (_lines self) (Some img)).

Definition set_lines (self : t) (lines : list string) : t :=
  mk lines (_image self).

(** [Union[pygame.Surface, List[str]]] *)
Inductive content : Type :=
| Image (s : Surface)
| Lines (l : list string).

Definition get_content (self : t) : content :=
  match _image self with
  | Some img => Image img
  | None => Lines (_lines self)
  end.
End WithPygame.
End Slide.

(** ** class Presentation *)

Module Presentation.
Section WithPygame.
Context {pg : Pygame}.

Record t : Type := mk { _slides : list Slide.t; _current_slide : Z }.

Definition init : t := mk [] 0.

Definition add_slide (self : t) (slide : Slide.t) : t :=
  mk (_slides self ++ [slide]) (_current_slide self).

Definition get_current_slide (self : t) : outcome Slide.t :=
  getitem (_slides self) (_current_slide self).

Definition next (self : t) : t :=
  mk (_slides self)
     (Z.min (_current_slide self + 1) (Z.of_nat (List.length (_slides self)) - 1)).

Definition prev (self : t) : t :=
  mk (_slides self) (Z.max (_current_slide self - 1) 0).
End WithPygame.
End Presentation.

(** ** The functions of the module *)

Section Program.
Context {pg : Pygame}.

(** *** parse *)

(** What the body of [for par in paragraphs] builds from [par] (lines 54
    to 67). *)
Definition slide_of_paragraph (par : string) : outcome Slide.t :=
  let slide := Slide.init in
  if startswith par "@"
  then
    (* This is an image *)
    let par := removeprefix par "@" in
    image <- getitem (split_ws par) 0 ;;
    Slide.set_image slide (mkPath image)
  else
    (* This is plain text *)
    let lines := split par LF in
    let lines := filter (fun x => negb (startswith x "#")) lines in
    let lines := map (fun line => removeprefix line "\") lines in
    Ok (Slide.set_lines slide lines).

(** The body of the loop: the slide is built and appended to [pres]. *)
Definition parse_paragraph (pres : Presentation.t) (par : string)
  : outcome Presentation.t :=
  slide <- slide_of_paragraph par ;;
  Ok (Presentation.add_slide pres slide).

(** [parse(filename)], given what [f.read()] returned for the file. *)
Definition parse (contents : string) : outcome Presentation.t :=
  let paragraphs := split contents (LF ++ LF)%string in
  let pres := Presentation.init in
  for_in paragraphs parse_paragraph pres.

(** *** draw_centered_image_with_padding *)

(** The values the function has computed when it blits: the target size
    handed to [pygame.transform.scale], the scaled image and its position. *)
Record image_blit : Type := {
  new_width : num;
  new_height : num;
  scaled : Surface;
  x : Z;
  y : Z
}.

(** [screen - 2 * (screen * padding)]: the width or height left between
    the two margins. *)
Definition available (screen : Z) (padding : spec_float) : outcome spec_float :=
  padding_px <- int_mul_float screen padding ;;
  twice <- int_mul_float 2 padding_px ;;
  int_sub_float screen twice.

Definition draw_centered_image_with_padding
    (image : Surface) (screen_width screen_height : Z)
    (horizontal_padding vertical_padding : spec_float) : outcome image_blit :=
  available_width <- available screen_width horizontal_padding ;;
  available_height <- available screen_height vertical_padding ;;
  let '(original_width, original_height) := get_size image in
  aspect_ratio <- int_truediv original_width original_height ;;
  ratio <- float_truediv available_width available_height ;;
  size <-
    (if float_gt ratio aspect_ratio
     then
       let new_height := available_height in
       new_width <- int_of_float (SF64mul new_height aspect_ratio) ;;
       Ok (Int new_width, Float new_height)
     else
       let new_width := available_width in
       quotient <- float_truediv new_width aspect_ratio ;;
       new_height <- int_of_float quotient ;;
       Ok (Float new_width, Int new_height)) ;;
  image <- transform_scale image size ;;
  let '(image_width, image_height) := get_size image in
  let x := (screen_width - image_width) / 2 in
  let y := (screen_height - image_height) / 2 in
  Ok {| new_width := fst size; new_height := snd size;
        scaled := image; x := x; y := y |}.

(** *** draw_centered_text *)

(** [sum(font.size(s)[1] for s in strings) + (len(strings) - 1) * 10]
    with the font at [size]. *)
Definition total_height (size : Z) (strings : list string) : Z :=
  Py.sum (map (fun s => snd (font_size size s)) strings)
  + (Z.of_nat (List.length strings) - 1) * 10.

(** [max(font.size(s)[0] for s in strings)] with the font at [size]. *)
Definition max_width (size : Z) (strings : list string) : outcome Z :=
  Py.max (map (fun s => fst (font_size size s)) strings).

(** The test that leaves the loop. *)
Definition overflows (available_width available_height : spec_float)
    (height width : Z) : bool :=
  int_gt_float height available_height || int_gt_float width available_width.

(** [while True: ...]: the value of [max_font_size] at the [break].
    [fuel] bounds the number of iterations; [None] says the loop is still
    running after that many. *)
Fixpoint fit_loop (fuel : nat) (strings : list string)
    (available_width available_height : spec_float) (max_font_size : Z)
  : option (outcome Z) :=
  match fuel with
  | O => None
  | S fuel' =>
      let height := total_height max_font_size strings in
      match max_width max_font_size strings with
      | Raise e => Some (Raise e)
      | Ok width =>
          if overflows available_width available_height height width
          then Some (Ok max_font_size)
          else fit_loop fuel' strings available_width available_height
                 (max_font_size + 1)
      end
  end.

(** The function up to the choice of the font (lines 121 to 145): the
    result is the size the text is then rendered with.  The blits that
    follow only place the rendered lines. *)
Definition draw_centered_text (fuel : nat) (strings : list string)
    (screen_width screen_height : Z)
    (horizontal_padding vertical_padding : spec_float) : option (outcome Z) :=
  match available screen_width horizontal_padding,
        available screen_height vertical_padding with
  | Raise e, _ => Some (Raise e)
  | Ok _, Raise e => Some (Raise e)
  | Ok available_width, Ok available_height =>
      let max_font_size := 1 in
      match fit_loop fuel strings available_width available_height max_font_size with
      | None => None
      | Some (Raise e) => Some (Raise e)
      | Some (Ok max_font_size) => Some (Ok (max_font_size - 1))
      end
  end.

(** *** main: what one pass of the display loop draws *)

Inductive frame : Type :=
| ImageFrame (b : image_blit)
| TextFrame (font : Z).

Definition draw_current (fuel : nat) (pres : Presentation.t)
    (screen_width screen_height : Z) : option (outcome frame) :=
  match Presentation.get_current_slide pres with
  | Raise e => Some (Raise e)
  | Ok slide =>
      match Slide.get_content slide with
      | Slide.Lines content =>
          match draw_centered_text fuel content screen_width screen_height f0_1 f0_1 with
          | None => None
          | Some r => Some (font <- r ;; Ok (TextFrame font))
          end
      | Slide.Image content =>
          Some (b <- draw_centered_image_with_padding content
                       screen_width screen_height f0_1 f0_1 ;;
                Ok (ImageFrame b))
      end
  end.

End Program.

(** ** A small pygame to run the program on

    A surface is its size, [files] lists the image files that exist, and the
    font is fixed-pitch. *)

Module Demo.

Definition load (files : list (string * (Z * Z))) (p : Path) : outcome (Z * Z) :=
  let 'mkPath name := p in
  match find (fun f => String.eqb (fst f) name) files with
  | Some f => Ok (snd f)
  | None => Raise BackendError
  end.

(** pygame reads each component of a size as a C [int]: a float is
    truncated. *)
Definition as_int (n : num) : outcome Z :=
  match n with
  | Int z => Ok z
  | Float f => int_of_float f
  end.

(** Scaling to a negative size is refused. *)
Definition scale (s : Z * Z) (size : num * num) : outcome (Z * Z) :=
  w <- as_int (fst size) ;;
  h <- as_int (snd size) ;;
  if (w <? 0) || (h <? 0) then Raise ValueError else Ok (w, h).

(** At size [n] every character is [n] wide and a line is [n] high;
    [pygame.font.Font] takes a size below 1 as 1. *)
Definition text_size (size : Z) (s : string) : Z * Z :=
  let n := Z.max size 1 in
  (n * Z.of_nat (String.length s), n).

Definition pygame (files : list (string * (Z * Z))) : Pygame :=
  {| Surface := Z * Z;
     image_load := load files;
     get_size := fun s => s;
     transform_scale := scale;
     font_size := text_size |}.

End Demo.

(** ** Sequences of controller operations *)

Section Operations.
Context {pg : Pygame}.

(** One call on a [Presentation]. *)
Inductive op : Type :=
| AddSlide (slide : Slide.t)
| Next
| Prev.

Definition apply (p : Presentation.t) (o : op) : Presentation.t :=
  match o with
  | AddSlide slide => Presentation.add_slide p slide
  | Next => Presentation.next p
  | Prev => Presentation.prev p
  end.

(** The presentation reached from [Presentation()] by the calls [ops]. *)
Definition run (ops : list op) : Presentation.t :=
  fold_left apply ops Presentation.init.

(** [next] is only ever called on a presentation that has a slide, when
    the calls [ops] start on one with [n] slides. *)
Fixpoint next_has_slide (n : nat) (ops : list op) : bool :=
  match ops with
  | [] => true
  | AddSlide _ :: ops' => next_has_slide (S n) ops'
  | Next :: ops' => (0 <? n)%nat && next_has_slide n ops'
  | Prev :: ops' => next_has_slide n ops'
  end.

Definition count (p : Presentation.t) : Z :=
  Z.of_nat (List.length (Presentation._slides p)).

(** The cursor never drops below -1 and never passes the last slide. *)
Definition loose (p : Presentation.t) : Prop :=
  -1 <= Presentation._current_slide p <= Z.max (count p - 1) 0.

(** The cursor is an index from the front, or 0 when there is no slide. *)
Definition tight (p : Presentation.t) : Prop :=
  0 <= Presentation._current_slide p <= Z.max (count p - 1) 0.
End Operations.


(** ** The parser in the words of the specification *)

(** The lines of a text slide: the lines of the paragraph in order, where a
    line that begins with [#] is dropped and any other line loses one leading
    backslash, if it has one. *)
Fixpoint text_lines (lines : list string) : list string :=
  match lines with
  | [] => []
  | EmptyString :: rest => EmptyString :: text_lines rest
  | String c line :: rest =>
      if Ascii.eqb c "#" then text_lines rest
      else if Ascii.eqb c "\" then line :: text_lines rest
      else String c line :: text_lines rest
  end.

(** A slide that shows text, and a slide that shows an image. *)
Definition TextSlide {pg : Pygame} (lines : list string) : Slide.t :=
  Slide.mk lines None.

Definition ImageSlide {pg : Pygame} (image : Surface) : Slide.t :=
  Slide.mk [] (Some image).

(** Every character of [s] is whitespace. *)
Fixpoint all_space (s : string) : bool :=
  match s with
  | EmptyString => true
  | String c s' => isspace c && all_space s'
  end.

(** A paragraph that begins with [@] and has nothing but whitespace after
    it. *)
Definition blank_image_paragraph (par : string) : bool :=
  match par with
  | EmptyString => false
  | String c rest => Ascii.eqb c "@" && all_space rest
  end.

(** The decks of the specification's examples. *)
Definition deck_text_and_image : string :=
  ("hello" ++ LF ++ "world" ++ LF ++ LF ++ "@pic.png extra")%string.

Definition deck_comment : string := ("#note" ++ LF ++ "visible")%string.

Definition deck_escape : string := "\#literal"%string.

Definition deck_only_comments : string := ("#one" ++ LF ++ "#two")%string.

(** ** Text fitting in the words of the specification *)

Section FitWords.
Context {pg : Pygame}.

(** The block of [strings] rendered at font [size] overflows the
    available space: its total height or its widest line exceeds it. *)
Definition overflows_at (available_width available_height : spec_float)
    (strings : list string) (size : Z) : bool :=
  match max_width size strings with
  | Ok width =>
      overflows available_width available_height (total_height size strings) width
  | Raise _ => false
  end.

(** Rendered metrics grow with the font size: from size 1 on, no line of
    [strings] gets narrower or lower when the size increases. *)
Definition monotone_metrics (strings : list string) : Prop :=
  forall s n m, In s strings -> 1 <= n <= m ->
    fst (font_size n s) <= fst (font_size m s)
    /\ snd (font_size n s) <= snd (font_size m s).

(** Every line of the paragraph is a comment. *)
Definition only_comments (par : string) : Prop :=
  Forall (fun line => startswith line "#" = true) (split par LF).
End FitWords.

(** A font whose hinting makes size 3 render narrower than size 2: below
    size 3 a character is twice the size wide, from size 3 on as wide as
    the size. *)
Definition hinted_text_size (size : Z) (s : string) : Z * Z :=
  let n := Z.max size 1 in
  ((if n <? 3 then 2 * n else n) * Z.of_nat (String.length s), n).

Definition hinted_pygame : Pygame :=
  {| Surface := Z * Z;
     image_load := Demo.load [];
     get_size := fun s => s;
     transform_scale := Demo.scale;
     font_size := hinted_text_size |}.

(** ** main: the display loop *)

Module Loop.
Section WithPygame.
Context {pg : Pygame}.

(** The keys the loop tells apart. *)
Inductive key : Set :=
| K_RIGHT
| K_LEFT
| K_q
| K_other.

(** The events the loop tells apart, by [event.type]. *)
Inductive event : Set :=
| QUIT
| VIDEORESIZE (w h : Z)
| KEYDOWN (k : key)
| OTHER.

(** The variables of [main] that the loop reads and writes. *)
Record state : Type := mk {
  pres : Presentation.t;
  screen_width : Z;
  screen_height : Z;
  running : bool
}.

(** The body of [for event in pygame.event.get()]. *)
Definition handle (st : state) (ev : event) : state :=
  match ev with
  | QUIT => mk (pres st) (screen_width st) (screen_height st) false
  | VIDEORESIZE w h => mk (pres st) w h (running st)
  | KEYDOWN K_RIGHT =>
      mk (Presentation.next (pres st)) (screen_width st) (screen_height st) (running st)
  | KEYDOWN K_LEFT =>
      mk (Presentation.prev (pres st)) (screen_width st) (screen_height st) (running st)
  | KEYDOWN K_q => mk (pres st) (screen_width st) (screen_height st) false
  | KEYDOWN K_other => st
  | OTHER => st
  end.

(** One pass of the body of [while running]: the events that
    [pygame.event.get()] returned are handled in order, then the current
    slide is drawn. *)
Definition pass (fuel : nat) (st : state) (events : list event)
  : option (outcome (state * frame)) :=
  let st := fold_left handle events st in
  match draw_current fuel (pres st) (screen_width st) (screen_height st) with
  | None => None
  | Some (Raise e) => Some (Raise e)
  | Some (Ok f) => Some (Ok (st, f))
  end.

(** [while running: ...], where [batches] lists what the successive calls of
    [pygame.event.get()] return: the state the loop is left in and the
    frames it drew.  The loop is left when [running] is false, and the model
    also stops when [batches] is used up. *)
Fixpoint run (fuel : nat) (batches : list (list event)) (st : state)
  : option (outcome (state * list frame)) :=
  match batches with
  | [] => Some (Ok (st, []))
  | events :: rest =>
      if running st
      then match pass fuel st events with
           | None => None
           | Some (Raise e) => Some (Raise e)
           | Some (Ok (st', f)) =>
               match run fuel rest st' with
               | None => None
               | Some (Raise e) => Some (Raise e)
               | Some (Ok (st'', frames)) => Some (Ok (st'', f :: frames))
               end
           end
      else Some (Ok (st, []))
  end.

(** [main(presentation_path)], given the contents of the file and the size
    of the display. *)
Definition main (fuel : nat) (contents : string) (display_w display_h : Z)
    (batches : list (list event)) : option (outcome (state * list frame)) :=
  match parse contents with
  | Raise e => Some (Raise e)
  | Ok p => run fuel batches (mk p display_w display_h true)
  end.

End WithPygame.
End Loop.

(** ** Words for the further properties *)

(** [sep.join(pieces)] *)
Fixpoint join (sep : string) (pieces : list string) : string :=
  match pieces with
  | [] => EmptyString
  | [piece] => piece
  | piece :: rest => (piece ++ sep ++ join sep rest)%string
  end.

(** No character of [s] is whitespace. *)
Fixpoint no_space (s : string) : bool :=
  match s with
  | EmptyString => true
  | String c s' => negb (isspace c) && no_space s'
  end.

(** No character of [s] is the line feed. *)
Fixpoint no_line_feed (s : string) : bool :=
  match s with
  | EmptyString => true
  | String c s' => negb (Ascii.eqb c (ascii_of_nat 10)) && no_line_feed s'
  end.

(** [n] calls of [next], and [n] calls of [prev]. *)
Definition next_times {pg : Pygame} (n : nat) (p : Presentation.t) : Presentation.t :=
  Nat.iter n Presentation.next p.

Definition prev_times {pg : Pygame} (n : nat) (p : Presentation.t) : Presentation.t :=
  Nat.iter n Presentation.prev p.

(** The cursor is an index of a slide, counted from the front. *)
Definition on_a_slide {pg : Pygame} (p : Presentation.t) : Prop :=
  0 <= Presentation._current_slide p < count p.

(** The event asks the loop to stop: the window was closed or [q] pressed. *)
Definition asks_to_quit (ev : Loop.event) : bool :=
  match ev with
  | Loop.QUIT => true
  | Loop.KEYDOWN Loop.K_q => true
  | _ => false
  end.

(** The event is a resize of the window. *)
Definition is_resize (ev : Loop.event) : bool :=
  match ev with
  | Loop.VIDEORESIZE _ _ => true
  | _ => false
  end.

(** The integer [w] is less than 1 away from the float [f], which is then
    a finite number, and is not above it when positive nor below it when
    negative: [w] is [f] cut off toward zero. *)
Definition cut_off (w : Z) (f : spec_float) : Prop :=
  int_float_compare (w - 1) f = Some Lt
  /\ int_float_compare (w + 1) f = Some Gt
  /\ (0 < w -> int_float_compare w f <> Some Gt)
  /\ (w < 0 -> int_float_compare w f <> Some Lt).
(** * Properties *)

(** ** The presentation controller *)

Section Controller.
Context {pg : Pygame}.

Lemma getitem_in_range {A : Type} (l : list A) (i : Z) :
  - Z.of_nat (List.length l) <= i < Z.of_nat (List.length l) ->
  exists a, getitem l i = Ok a.
Proof.
  intros Hi. unfold getitem.
  set (n := Z.of_nat (List.length l)) in *.
  set (j := if i <? 0 then n + i else i).
  assert (Hj : 0 <= j < n).
  { subst j. destruct (Z.ltb_spec i 0); lia. }
  replace ((0 <=? j) && (j <? n)) with true
    by (symmetry; apply andb_true_iff; split;
        [apply Z.leb_le | apply Z.ltb_lt]; lia).
  destruct (nth_error l (Z.to_nat j)) eqn:E.
  - now exists a.
  - apply nth_error_None in E. subst n. lia.
Qed.

Lemma count_add_slide (p : Presentation.t) (s : Slide.t) :
  count (Presentation.add_slide p s) = count p + 1.
Proof.
  unfold count, Presentation.add_slide; cbn.
  rewrite length_app; cbn. lia.
Qed.

Lemma apply_loose (p : Presentation.t) (o : op) : loose p -> loose (apply p o).
Proof.
  unfold loose. destruct o; cbn [apply].
  - rewrite count_add_slide. cbn. lia.
  - unfold count; cbn. lia.
  - unfold count; cbn. lia.
Qed.

Lemma fold_loose (ops : list op) :
  forall p, loose p -> loose (fold_left apply ops p).
Proof.
  induction ops as [|o ops IH]; intros p Hp; cbn; auto using apply_loose.
Qed.

Lemma fold_tight (ops : list op) :
  forall p, tight p ->
    next_has_slide (List.length (Presentation._slides p)) ops = true ->
    tight (fold_left apply ops p).
Proof.
  induction ops as [|o ops IH]; intros p Hp Hops; cbn; auto.
  apply IH.
  - unfold tight in *. destruct o; cbn [apply].
    + rewrite count_add_slide. cbn. lia.
    + cbn [next_has_slide] in Hops. apply andb_true_iff in Hops as [Hn _].
      apply Nat.ltb_lt in Hn. unfold count in *; cbn. lia.
    + unfold count in *; cbn. lia.
  - destruct o; cbn [next_has_slide apply] in *.
    + unfold Presentation.add_slide; cbn.
      rewrite length_app; cbn. now rewrite Nat.add_1_r.
    + now apply andb_true_iff in Hops as [_ Hops].
    + assumption.
Qed.

(** C4: navigation clamps at both ends, without wraparound.  A new
    presentation has its cursor at 0; [next] moves the cursor to
    [min(index + 1, N - 1)] and [prev] to [max(index - 1, 0)], neither
    touching the slides; from the last slide [next] stays there and from
    slide 0 [prev] stays there; and with three slides and the cursor at 0,
    [prev] leaves it at 0 and three calls of [next] leave it at 2. *)
Theorem navigation_clamps :
  Presentation._current_slide Presentation.init = 0
  /\ (forall p : Presentation.t,
        Presentation._current_slide (Presentation.next p)
          = Z.min (Presentation._current_slide p + 1) (count p - 1)
        /\ Presentation._slides (Presentation.next p) = Presentation._slides p)
  /\ (forall p : Presentation.t,
        Presentation._current_slide (Presentation.prev p)
          = Z.max (Presentation._current_slide p - 1) 0
        /\ Presentation._slides (Presentation.prev p) = Presentation._slides p)
  /\ (forall (s : Slide.t) (slides : list Slide.t),
        let last := Z.of_nat (List.length slides) in
        Presentation._current_slide
          (Presentation.next (Presentation.mk (s :: slides) last)) = last
        /\ Presentation._current_slide
             (Presentation.prev (Presentation.mk (s :: slides) 0)) = 0)
  /\ (forall s1 s2 s3 : Slide.t,
        let p := run [AddSlide s1; AddSlide s2; AddSlide s3] in
        Presentation._slides p = [s1; s2; s3]
        /\ Presentation._current_slide p = 0
        /\ Presentation._current_slide (Presentation.prev p) = 0
        /\ Presentation._current_slide
             (Presentation.next (Presentation.next (Presentation.next p))) = 2).
Proof.
  split; [reflexivity|].
  split; [intros p; split; reflexivity|].
  split; [intros p; split; reflexivity|].
  split.
  - intros s slides last. subst last.
    unfold Presentation.next, Presentation.prev.
    cbn [Presentation._current_slide Presentation._slides List.length].
    split; lia.
  - intros s1 s2 s3. repeat split.
Qed.

(** C7, as the code has it: after any sequence of [add_slide], [next] and
    [prev] the cursor lies between -1 and the last index, so that on a
    presentation with a slide [get_current_slide] returns one (Python reads
    index -1 as the last slide); and when [next] was never called on a
    presentation without slides, the cursor lies in [0, N-1] as soon as
    there is a slide. *)
Theorem cursor_stays_readable (ops : list op) :
  let p := run ops in
  (-1 <= Presentation._current_slide p
   /\ (Presentation._slides p <> [] ->
       Presentation._current_slide p <= count p - 1))
  /\ (Presentation._slides p <> [] ->
      exists slide, Presentation.get_current_slide p = Ok slide)
  /\ (next_has_slide 0 ops = true ->
      Presentation._slides p <> [] ->
      0 <= Presentation._current_slide p <= count p - 1).
Proof.
  intros p.
  assert (Hpos : Presentation._slides p <> [] -> 1 <= count p).
  { unfold count. destruct (Presentation._slides p); [congruence | cbn; lia]. }
  assert (Hl : loose p).
  { apply fold_loose. unfold loose, count; cbn. lia. }
  unfold loose in Hl.
  split; [split; [lia | intros H; apply Hpos in H; lia] |].
  split.
  - intros H. apply Hpos in H.
    apply getitem_in_range. fold (count p). lia.
  - intros Hops H. apply Hpos in H.
    assert (Ht : tight p).
    { apply fold_tight; [unfold tight, count; cbn; lia | exact Hops]. }
    unfold tight in Ht. lia.
Qed.

End Controller.

(** C7 at the calls [add_slide; next; next; prev]: the hypothesis of its
    last part holds there and the cursor ends on slide 0. *)
Lemma cursor_stays_readable_witness :
  let pg := Demo.pygame [] in
  let ops := [AddSlide Slide.init; Next; Next; Prev] in
  next_has_slide 0 ops = true
  /\ Presentation._slides (run ops) <> []
  /\ 0 <= Presentation._current_slide (run ops) <= count (run ops) - 1.
Proof.
  intros pg ops.
  assert (H1 : next_has_slide 0 ops = true) by reflexivity.
  assert (H2 : Presentation._slides (run ops) <> []) by (cbn; congruence).
  split; [exact H1|]. split; [exact H2|].
  exact (proj2 (proj2 (cursor_stays_readable ops)) H1 H2).
Defined.

(** C7 as the claim words it fails: after [next] on the empty presentation
    and then [add_slide], there is one slide and the cursor is -1, outside
    [0, N-1]. *)
Lemma cursor_out_of_range_counterexample :
  let pg := Demo.pygame [] in
  let p := run [Next; AddSlide Slide.init] in
  Presentation._slides p <> []
  /\ Presentation._current_slide p = -1
  /\ ~ (0 <= Presentation._current_slide p <= count p - 1).
Proof.
  cbn. split; [congruence|]. split; [reflexivity|]. lia.
Qed.

(** ** The deck parser *)

Section Parser.
Context {pg : Pygame}.

(** *** String methods *)

Lemma substring_whole (s : string) : substring 0 (String.length s) s = s.
Proof. induction s as [|c s IH]; cbn; [reflexivity | now rewrite IH]. Qed.

Lemma prefix_empty (s : string) : String.prefix EmptyString s = true.
Proof. now destruct s. Qed.

Lemma startswith_char (c d : ascii) (s : string) :
  startswith (String d s) (String c EmptyString) = Ascii.eqb c d.
Proof.
  unfold startswith; cbn.
  destruct (ascii_dec c d) as [->|Hne].
  - now rewrite prefix_empty, Ascii.eqb_refl.
  - symmetry. now apply Ascii.eqb_neq.
Qed.

Lemma startswith_char_empty (c : ascii) :
  startswith EmptyString (String c EmptyString) = false.
Proof. reflexivity. Qed.

Lemma removeprefix_char (c d : ascii) (s : string) :
  removeprefix (String d s) (String c EmptyString)
  = if Ascii.eqb c d then s else String d s.
Proof.
  unfold removeprefix. rewrite startswith_char.
  destruct (Ascii.eqb c d); [|reflexivity].
  cbn. rewrite Nat.sub_0_r. apply substring_whole.
Qed.

(** The filter and the map of the text branch compute [text_lines]. *)
Lemma filter_map_text_lines (lines : list string) :
  map (fun line => removeprefix line "\")
      (filter (fun x => negb (startswith x "#")) lines)
  = text_lines lines.
Proof.
  induction lines as [|line lines IH]; [reflexivity|].
  destruct line as [|c line].
  - cbn [filter text_lines]. rewrite startswith_char_empty. cbn. now rewrite IH.
  - cbn [filter text_lines]. rewrite startswith_char.
    rewrite (Ascii.eqb_sym "#" c).
    destruct (Ascii.eqb c "#"); cbn [negb]; [exact IH|].
    cbn [map]. rewrite removeprefix_char, IH.
    rewrite (Ascii.eqb_sym "\" c).
    now destruct (Ascii.eqb c "\").
Qed.

Lemma slide_of_text_paragraph (par : string) :
  startswith par "@" = false ->
  slide_of_paragraph par = Ok (TextSlide (text_lines (split par LF))).
Proof.
  intros H. unfold slide_of_paragraph. rewrite H.
  now rewrite filter_map_text_lines.
Qed.

(** *** The loop over the paragraphs *)

Lemma for_in_app {A S : Type} (body : S -> A -> outcome S) (l1 l2 : list A) :
  forall s, for_in (l1 ++ l2) body s = (s' <- for_in l1 body s ;; for_in l2 body s').
Proof.
  induction l1 as [|a l1 IH]; intros s; cbn; [reflexivity|].
  destruct (body s a); cbn; [apply IH | reflexivity].
Qed.

(** When the loop returns, each paragraph has given one slide, in order,
    and the cursor was left alone. *)
Lemma for_in_parse_paragraph (pars : list string) :
  forall p p' : Presentation.t,
    for_in pars parse_paragraph p = Ok p' ->
    exists slides,
      Forall2 (fun par slide => slide_of_paragraph par = Ok slide) pars slides
      /\ p' = Presentation.mk (Presentation._slides p ++ slides)
                              (Presentation._current_slide p).
Proof.
  induction pars as [|par pars IH]; intros p p' H; cbn in H.
  - injection H as <-. exists []. split; [constructor|].
    rewrite app_nil_r. now destruct p.
  - unfold parse_paragraph in H at 1.
    destruct (slide_of_paragraph par) as [slide|e] eqn:E; cbn in H; [|discriminate].
    apply IH in H as (slides & HF & ->).
    exists (slide :: slides). split; [now constructor|].
    cbn. now rewrite <- app_assoc.
Qed.

Lemma parse_slides (contents : string) (pres : Presentation.t) :
  parse contents = Ok pres ->
  exists slides,
    Forall2 (fun par slide => slide_of_paragraph par = Ok slide)
            (split contents (LF ++ LF)%string) slides
    /\ pres = Presentation.mk slides 0.
Proof.
  intros H. apply for_in_parse_paragraph in H as (slides & HF & ->).
  now exists slides.
Qed.

Lemma Forall2_nth_error {A B : Type} (R : A -> B -> Prop) (l1 : list A) (l2 : list B) :
  Forall2 R l1 l2 ->
  forall i a, nth_error l1 i = Some a ->
    exists b, nth_error l2 i = Some b /\ R a b.
Proof.
  induction 1 as [|a0 b0 l1 l2 HR HF IH]; intros i a Hi.
  - now destruct i.
  - destruct i as [|i]; cbn in *.
    + injection Hi as <-. now exists b0.
    + now apply IH.
Qed.

Lemma all_space_split_ws (s : string) : all_space s = true -> split_ws s = [].
Proof.
  unfold split_ws. induction s as [|c s IH]; cbn; [reflexivity|].
  intros H. apply andb_true_iff in H as [Hc Hs].
  rewrite Hc. now apply IH.
Qed.

Lemma slide_of_blank_image_paragraph (par : string) :
  blank_image_paragraph par = true -> slide_of_paragraph par = Raise IndexError.
Proof.
  destruct par as [|c rest]; cbn [blank_image_paragraph]; [discriminate|].
  intros H. apply andb_true_iff in H as [Hc Hs].
  apply Ascii.eqb_eq in Hc as ->.
  unfold slide_of_paragraph.
  rewrite startswith_char, removeprefix_char, Ascii.eqb_refl.
  now rewrite (all_space_split_ws _ Hs).
Qed.

(** C5: for a paragraph that does not begin with [@], the slide built is
    a text slide whose lines are the paragraph's lines with every line
    beginning with [#] dropped and one leading backslash stripped from each
    remaining line; so it is for that paragraph in any deck that [parse]
    returns a presentation for; the deck [#note], [visible] gives the
    lines [visible], and the deck [\#literal] gives [#literal]. *)
Theorem text_paragraph_lines (par : string) :
  startswith par "@" = false ->
  slide_of_paragraph par = Ok (TextSlide (text_lines (split par LF)))
  /\ (forall (contents : string) (pres : Presentation.t) (i : nat),
        parse contents = Ok pres ->
        nth_error (split contents (LF ++ LF)%string) i = Some par ->
        nth_error (Presentation._slides pres) i
        = Some (TextSlide (text_lines (split par LF))))
  /\ Slide.get_content (TextSlide (text_lines (split par LF)))
     = Slide.Lines (text_lines (split par LF))
  /\ parse deck_comment = Ok (Presentation.mk [TextSlide ["visible"%string]] 0)
  /\ parse deck_escape = Ok (Presentation.mk [TextSlide ["#literal"%string]] 0).
Proof.
  intros Hpar. pose proof (slide_of_text_paragraph par Hpar) as Hslide.
  split; [exact Hslide|]. split; [|repeat split].
  intros contents pres i Hparse Hi.
  apply parse_slides in Hparse as (slides & HF & ->).
  destruct (Forall2_nth_error _ _ _ HF i par Hi) as (slide & Hs & Hok).
  cbn. rewrite Hs. congruence.
Qed.

(** C8, as the code has it: the empty input gives a presentation with
    exactly one slide, a text slide with exactly one line, the empty
    string. *)
Theorem parse_empty_input :
  parse EmptyString = Ok (Presentation.mk [TextSlide [EmptyString]] 0)
  /\ Slide.get_content (TextSlide [EmptyString]) = Slide.Lines [EmptyString].
Proof. split; reflexivity. Qed.

(** C3, as the code has it: [parse] loads the image while it parses.  On
    the deck [hello], [world], blank line, [@pic.png extra], the paragraphs
    are the two blocks and the image path is the first token [pic.png];
    when pygame loads that path, the result is exactly two slides in file
    order, the text slide with lines [hello], [world] and then the image
    slide holding the loaded surface; when the load raises, [parse] raises
    the same exception. *)
Theorem parse_text_and_image :
  split deck_text_and_image (LF ++ LF)%string
  = [("hello" ++ LF ++ "world")%string; "@pic.png extra"%string]
  /\ getitem (split_ws (removeprefix "@pic.png extra" "@")) 0 = Ok "pic.png"%string
  /\ (forall image : Surface,
        image_load (mkPath "pic.png") = Ok image ->
        parse deck_text_and_image
        = Ok (Presentation.mk
                [TextSlide ["hello"%string; "world"%string]; ImageSlide image] 0)
        /\ Slide.get_content (ImageSlide image) = Slide.Image image)
  /\ (forall e : exc,
        image_load (mkPath "pic.png") = Raise e ->
        parse deck_text_and_image = Raise e).
Proof.
  assert (Himage : slide_of_paragraph "@pic.png extra"
                   = Slide.set_image Slide.init (mkPath "pic.png")) by reflexivity.
  assert (Hparse : parse deck_text_and_image
                   = (slide <- Slide.set_image Slide.init (mkPath "pic.png") ;;
                      Ok (Presentation.mk
                            [TextSlide ["hello"%string; "world"%string]; slide] 0))).
  { unfold parse.
    change (split deck_text_and_image (LF ++ LF)%string)
      with [("hello" ++ LF ++ "world")%string; "@pic.png extra"%string].
    cbn [for_in]. unfold parse_paragraph.
    change (slide_of_paragraph ("hello" ++ LF ++ "world")%string)
      with (Ok (TextSlide ["hello"%string; "world"%string])).
    rewrite Himage. cbn [Py.bind].
    now destruct (Slide.set_image Slide.init (mkPath "pic.png")). }
  split; [reflexivity|]. split; [reflexivity|].
  rewrite Hparse. unfold Slide.set_image.
  split.
  - intros image ->. split; reflexivity.
  - now intros e ->.
Qed.

(** C10, as the code has it: a paragraph that begins with [@] and has only
    whitespace after it makes the loop body raise [IndexError]; a deck
    with such a paragraph never gets a presentation from [parse]; the
    exception is [IndexError] when the paragraphs before it were parsed,
    and otherwise the exception an earlier paragraph raised. *)
Theorem blank_image_paragraph_raises
    (contents : string) (before after : list string) (par : string) :
  split contents (LF ++ LF)%string = before ++ par :: after ->
  blank_image_paragraph par = true ->
  slide_of_paragraph par = Raise IndexError
  /\ (forall pres, parse contents <> Ok pres)
  /\ (forall p, for_in before parse_paragraph Presentation.init = Ok p ->
                parse contents = Raise IndexError)
  /\ (forall e, for_in before parse_paragraph Presentation.init = Raise e ->
                parse contents = Raise e).
Proof.
  intros Hsplit Hpar.
  pose proof (slide_of_blank_image_paragraph par Hpar) as Hslide.
  assert (Hparse : parse contents
                   = (p <- for_in before parse_paragraph Presentation.init ;;
                      Raise IndexError)).
  { unfold parse. rewrite Hsplit, for_in_app.
    destruct (for_in before parse_paragraph Presentation.init); cbn; [|reflexivity].
    unfold parse_paragraph at 1. now rewrite Hslide. }
  split; [exact Hslide|]. rewrite Hparse.
  split; [|split].
  - intros pres. destruct (for_in before parse_paragraph Presentation.init); discriminate.
  - now intros p ->.
  - now intros e ->.
Qed.

End Parser.

(** C5 at the paragraph [#note], [visible]. *)
Lemma text_paragraph_lines_witness :
  let pg := Demo.pygame [] in
  startswith deck_comment "@" = false
  /\ slide_of_paragraph deck_comment = Ok (TextSlide ["visible"%string]).
Proof.
  intros pg.
  assert (H : startswith deck_comment "@" = false) by reflexivity.
  split; [exact H|].
  exact (proj1 (text_paragraph_lines deck_comment H)).
Defined.

(** C8 as the claim words it fails: the one slide of the empty input does
    not have zero lines, it has the one line [""]. *)
Lemma parse_empty_input_counterexample :
  let pg := Demo.pygame [] in
  (exists slide lines,
      parse EmptyString = Ok (Presentation.mk [slide] 0)
      /\ Slide.get_content slide = Slide.Lines lines
      /\ List.length lines = 1%nat)
  /\ ~ (exists slide,
          parse EmptyString = Ok (Presentation.mk [slide] 0)
          /\ Slide.get_content slide = Slide.Lines []).
Proof.
  intros pg. split.
  - exists (TextSlide [EmptyString]), [EmptyString]. repeat split.
  - intros (slide & Hp & Hc). cbv in Hp. injection Hp as <-. discriminate Hc.
Qed.

(** C3 where [pic.png] is a 2 by 3 image. *)
Lemma parse_text_and_image_witness :
  let pg := Demo.pygame [("pic.png"%string, (2, 3))] in
  image_load (mkPath "pic.png") = Ok (2, 3)
  /\ parse deck_text_and_image
     = Ok (Presentation.mk
             [TextSlide ["hello"%string; "world"%string]; ImageSlide (2, 3)] 0).
Proof.
  intros pg.
  assert (H : image_load (mkPath "pic.png") = Ok (2, 3)) by reflexivity.
  split; [exact H|].
  exact (proj1 (proj1 (proj2 (proj2 parse_text_and_image)) (2, 3) H)).
Defined.

(** C3 as the claim words it fails: where no file [pic.png] can be loaded,
    [parse] raises and produces no slides at all. *)
Lemma parse_text_and_image_counterexample :
  let pg := Demo.pygame [] in
  parse deck_text_and_image = Raise BackendError
  /\ ~ (exists image,
          parse deck_text_and_image
          = Ok (Presentation.mk
                  [TextSlide ["hello"%string; "world"%string]; ImageSlide image] 0)).
Proof.
  intros pg. split; [reflexivity|].
  intros (image & H). discriminate H.
Qed.

(** C10 at the deck [text], blank line, [@ ], blank line, [more]. *)
Lemma blank_image_paragraph_raises_witness :
  let pg := Demo.pygame [] in
  let contents := ("text" ++ LF ++ LF ++ "@ " ++ LF ++ LF ++ "more")%string in
  split contents (LF ++ LF)%string = ["text"%string] ++ "@ "%string :: ["more"%string]
  /\ blank_image_paragraph "@ " = true
  /\ parse contents = Raise IndexError.
Proof.
  intros pg contents.
  assert (H1 : split contents (LF ++ LF)%string
               = ["text"%string] ++ "@ "%string :: ["more"%string]) by reflexivity.
  assert (H2 : blank_image_paragraph "@ " = true) by reflexivity.
  split; [exact H1|]. split; [exact H2|].
  exact (proj1 (proj2 (proj2 (blank_image_paragraph_raises contents _ _ _ H1 H2)))
           _ eq_refl).
Defined.

(** C10 as the claim words it fails: in the deck [@missing.png], blank
    line, [@] the second paragraph is a bare [@], yet [parse] does not raise
    [IndexError]: loading the first paragraph's image has already raised. *)
Lemma blank_image_paragraph_counterexample :
  let pg := Demo.pygame [] in
  let contents := ("@missing.png" ++ LF ++ LF ++ "@")%string in
  In "@"%string (split contents (LF ++ LF)%string)
  /\ blank_image_paragraph "@" = true
  /\ parse contents = Raise BackendError
  /\ parse contents <> Raise IndexError.
Proof.
  intros pg contents. split; [right; left; reflexivity|].
  split; [reflexivity|]. split; [reflexivity|]. discriminate.
Qed.

(** ** Image fitting *)

Section ImageFit.
Context {pg : Pygame}.

Lemma bind_Ok {A B : Type} (m : outcome A) (k : A -> outcome B) (b : B) :
  (a <- m ;; k a) = Ok b -> exists a, m = Ok a /\ k a = Ok b.
Proof. destruct m as [a|e]; cbn; [now exists a | discriminate]. Qed.

(** C2, as the code has it: whenever the function gets to blit, the
    available width and height, the aspect ratio and their quotient were
    computed; when available_width / available_height > aspect_ratio the
    image is fit to height, with new_height = available_height and
    new_width = int(new_height * aspect_ratio), and otherwise fit to
    width, with new_width = available_width and
    new_height = int(new_width / aspect_ratio); the image scaled to that
    size is placed at x = (screen_width - image_width) // 2 and
    y = (screen_height - image_height) // 2, the floor of the half, where
    image_width and image_height are the integer size of the scaled
    surface. *)
Theorem image_fit (image : Surface) (screen_width screen_height : Z)
    (horizontal_padding vertical_padding : spec_float) (b : image_blit) :
  draw_centered_image_with_padding image screen_width screen_height
    horizontal_padding vertical_padding = Ok b ->
  exists available_width available_height aspect_ratio ratio,
    available screen_width horizontal_padding = Ok available_width
    /\ available screen_height vertical_padding = Ok available_height
    /\ int_truediv (fst (get_size image)) (snd (get_size image)) = Ok aspect_ratio
    /\ float_truediv available_width available_height = Ok ratio
    /\ (if float_gt ratio aspect_ratio
        then new_height b = Float available_height
             /\ exists w, int_of_float (SF64mul available_height aspect_ratio) = Ok w
                          /\ new_width b = Int w
        else new_width b = Float available_width
             /\ exists q h, float_truediv available_width aspect_ratio = Ok q
                            /\ int_of_float q = Ok h
                            /\ new_height b = Int h)
    /\ transform_scale image (new_width b, new_height b) = Ok (scaled b)
    /\ x b = (screen_width - fst (get_size (scaled b))) / 2
    /\ y b = (screen_height - snd (get_size (scaled b))) / 2.
Proof.
  unfold draw_centered_image_with_padding. intros H.
  apply bind_Ok in H as (aw & Haw & H).
  apply bind_Ok in H as (ah & Hah & H).
  destruct (get_size image) as [ow oh] eqn:Hsize.
  apply bind_Ok in H as (ar & Har & H).
  apply bind_Ok in H as (ratio & Hratio & H).
  apply bind_Ok in H as (size & Hfit & H).
  apply bind_Ok in H as (img & Himg & H).
  destruct (get_size img) as [iw ih] eqn:Hisize.
  injection H as <-. cbn [new_width new_height scaled x y].
  exists aw, ah, ar, ratio.
  rewrite Hisize. cbn [fst snd].
  split; [exact Haw|]. split; [exact Hah|]. split; [exact Har|].
  split; [exact Hratio|].
  split; [|split; [now destruct size | split; reflexivity]].
  destruct (float_gt ratio ar).
  - apply bind_Ok in Hfit as (w & Hw & Hfit). injection Hfit as <-.
    split; [reflexivity|]. now exists w.
  - apply bind_Ok in Hfit as (q & Hq & Hfit).
    apply bind_Ok in Hfit as (h & Hh & Hfit). injection Hfit as <-.
    split; [reflexivity|]. now exists q, h.
Qed.

End ImageFit.

(** C2 for a 2 by 3 image on a 1000 by 1000 screen: the image is fit to
    height, 533 wide, and placed at (233, 100). *)
Lemma image_fit_witness :
  let pg := Demo.pygame [] in
  exists b,
    draw_centered_image_with_padding (2, 3) 1000 1000 f0_1 f0_1 = Ok b
    /\ new_width b = Int 533
    /\ x b = (1000 - fst (get_size (scaled b))) / 2
    /\ x b = 233 /\ y b = 100.
Proof.
  intros pg.
  assert (E : draw_centered_image_with_padding (pg := pg) (2, 3) 1000 1000 f0_1 f0_1
              = Ok {| new_width := Int 533;
                      new_height := Float (S754_finite false 7036874417766400 (-43));
                      scaled := (533, 800); x := 233; y := 100 |})
    by (vm_compute; reflexivity).
  eexists. split; [exact E|].
  destruct (image_fit (pg := pg) (2, 3) 1000 1000 f0_1 f0_1 _ E)
    as (aw & ah & ar & ratio & _ & _ & _ & _ & _ & _ & Hx & _).
  split; [reflexivity|]. split; [exact Hx|]. split; reflexivity.
Defined.

(** C2 as the claim words it fails: for a 2 by 3 image on a 1000 by 1000
    screen the image is fit to height, new_height is 800.0 and new_width is
    533, which is not new_height * aspect_ratio (533.33...), and twice the x
    of the blit, 233, is not screen_width - new_width. *)
Lemma image_fit_counterexample :
  let pg := Demo.pygame [] in
  exists b available_height aspect_ratio,
    draw_centered_image_with_padding (2, 3) 1000 1000 f0_1 f0_1 = Ok b
    /\ available 1000 f0_1 = Ok available_height
    /\ int_truediv 2 3 = Ok aspect_ratio
    /\ new_height b = Float available_height
    /\ new_width b = Int 533
    /\ num_eq (new_width b) (Float (SF64mul available_height aspect_ratio)) = false
    /\ x b = 233
    /\ 2 * x b <> 1000 - 533.
Proof.
  intros pg. eexists. eexists. eexists.
  split; [vm_compute; reflexivity|].
  split; [vm_compute; reflexivity|].
  split; [vm_compute; reflexivity|].
  split; [reflexivity|]. split; [reflexivity|].
  split; [vm_compute; reflexivity|].
  split; [reflexivity|]. cbn. lia.
Qed.

(** A 1000 by 1 image on a 100 by 100 screen is fit to width: 80.0 wide,
    and the height int(80.0 / 1000.0) is 0. *)
Example image_fit_flat_image :
  let pg := Demo.pygame [] in
  exists b,
    draw_centered_image_with_padding (1000, 1) 100 100 f0_1 f0_1 = Ok b
    /\ new_width b = Float (S754_finite false 5629499534213120 (-46))
    /\ new_height b = Int 0
    /\ (x b, y b) = (10, 50).
Proof.
  intros pg. eexists. split; [vm_compute; reflexivity|]. repeat split.
Qed.

(** An image without height makes the aspect ratio a division by zero. *)
Example image_fit_no_height :
  let pg := Demo.pygame [] in
  draw_centered_image_with_padding (3, 0) 100 100 f0_1 f0_1 = Raise ZeroDivisionError.
Proof. intros pg. vm_compute. reflexivity. Qed.

(** ** Text fitting *)

Section TextFit.
Context {pg : Pygame}.

(** *** Order facts about the measures *)

Lemma int_gt_float_mono (z z' : Z) (f : spec_float) :
  z <= z' -> int_gt_float z f = true -> int_gt_float z' f = true.
Proof.
  unfold int_gt_float, int_float_compare. intros Hle.
  destruct f as [s|s| |s m e]; try (destruct s); try discriminate; try reflexivity.
  - destruct (z ?= 0) eqn:E; try discriminate. intros _.
    apply Z.compare_gt_iff in E.
    replace (z' ?= 0) with Gt; [reflexivity|].
    symmetry. apply Z.compare_gt_iff. lia.
  - destruct (z ?= 0) eqn:E; try discriminate. intros _.
    apply Z.compare_gt_iff in E.
    replace (z' ?= 0) with Gt; [reflexivity|].
    symmetry. apply Z.compare_gt_iff. lia.
  - cbv zeta. destruct (0 <=? e) eqn:He.
    + destruct (z ?= Z.neg m * 2 ^ e) eqn:E; try discriminate. intros _.
      apply Z.compare_gt_iff in E.
      replace (z' ?= Z.neg m * 2 ^ e) with Gt; [reflexivity|].
      symmetry. apply Z.compare_gt_iff. lia.
    + destruct (z * 2 ^ (- e) ?= Z.neg m) eqn:E; try discriminate. intros _.
      apply Z.compare_gt_iff in E.
      assert (0 < 2 ^ (- e)) by (apply Z.pow_pos_nonneg; apply Z.leb_gt in He; lia).
      replace (z' * 2 ^ (- e) ?= Z.neg m) with Gt; [reflexivity|].
      symmetry. apply Z.compare_gt_iff. nia.
  - cbv zeta. destruct (0 <=? e) eqn:He.
    + destruct (z ?= Z.pos m * 2 ^ e) eqn:E; try discriminate. intros _.
      apply Z.compare_gt_iff in E.
      replace (z' ?= Z.pos m * 2 ^ e) with Gt; [reflexivity|].
      symmetry. apply Z.compare_gt_iff. lia.
    + destruct (z * 2 ^ (- e) ?= Z.pos m) eqn:E; try discriminate. intros _.
      apply Z.compare_gt_iff in E.
      assert (0 < 2 ^ (- e)) by (apply Z.pow_pos_nonneg; apply Z.leb_gt in He; lia).
      replace (z' * 2 ^ (- e) ?= Z.pos m) with Gt; [reflexivity|].
      symmetry. apply Z.compare_gt_iff. nia.
Qed.

Lemma fold_add_mono {A : Type} (f g : A -> Z) (l : list A) :
  (forall a, In a l -> f a <= g a) ->
  forall x y, x <= y ->
    fold_left Z.add (map f l) x <= fold_left Z.add (map g l) y.
Proof.
  induction l as [|a l IH]; intros Hfg x y Hxy; cbn; [exact Hxy|].
  apply IH.
  - intros b Hb. apply Hfg. now right.
  - pose proof (Hfg a (or_introl eq_refl)). lia.
Qed.

Lemma fold_max_mono {A : Type} (f g : A -> Z) (l : list A) :
  (forall a, In a l -> f a <= g a) ->
  forall x y, x <= y ->
    fold_left Z.max (map f l) x <= fold_left Z.max (map g l) y.
Proof.
  induction l as [|a l IH]; intros Hfg x y Hxy; cbn; [exact Hxy|].
  apply IH.
  - intros b Hb. apply Hfg. now right.
  - pose proof (Hfg a (or_introl eq_refl)). lia.
Qed.

Lemma max_width_nonempty (size : Z) (strings : list string) :
  strings <> [] -> exists width, max_width size strings = Ok width.
Proof.
  destruct strings as [|s strings]; [congruence|]. intros _.
  unfold max_width. cbn. eauto.
Qed.

Lemma overflows_at_mono (aw ah : spec_float) (strings : list string) (n m : Z) :
  monotone_metrics strings -> 1 <= n <= m ->
  overflows_at aw ah strings n = true -> overflows_at aw ah strings m = true.
Proof.
  intros Hmono Hnm. unfold overflows_at.
  destruct strings as [|s strings]; [discriminate|].
  unfold max_width, overflows, total_height. cbn [map Py.max].
  intros H. apply orb_true_iff in H. apply orb_true_iff.
  destruct H as [H|H]; [left|right]; revert H; apply int_gt_float_mono.
  - apply Z.add_le_mono_r. unfold Py.sum.
    apply fold_add_mono with (l := s :: strings); [|lia].
    intros a Ha. now apply Hmono.
  - apply fold_max_mono.
    + intros a Ha. apply Hmono; [now right | exact Hnm].
    + apply Hmono; [now left | exact Hnm].
Qed.

(** *** The loop *)

Lemma fit_loop_step (fuel : nat) (strings : list string) (aw ah : spec_float) (n : Z) :
  strings <> [] ->
  fit_loop (S fuel) strings aw ah n
  = if overflows_at aw ah strings n then Some (Ok n)
    else fit_loop fuel strings aw ah (n + 1).
Proof.
  intros Hne. destruct (max_width_nonempty n strings Hne) as [w Hw].
  cbn [fit_loop]. unfold overflows_at. now rewrite Hw.
Qed.

(** The loop leaves at the first size that overflows. *)
Lemma fit_loop_first (strings : list string) (aw ah : spec_float) :
  strings <> [] ->
  forall (d : nat) (n : Z) (fuel : nat),
    (forall k, n <= k < n + Z.of_nat d -> overflows_at aw ah strings k = false) ->
    overflows_at aw ah strings (n + Z.of_nat d) = true ->
    (d < fuel)%nat ->
    fit_loop fuel strings aw ah n = Some (Ok (n + Z.of_nat d)).
Proof.
  intros Hne. induction d as [|d IH]; intros n fuel Hbelow Hat Hfuel;
    (destruct fuel as [|fuel]; [lia|]); rewrite fit_loop_step by exact Hne.
  - rewrite Z.add_0_r in *. now rewrite Hat.
  - rewrite Hbelow by lia.
    replace (n + Z.of_nat (S d)) with (n + 1 + Z.of_nat d) in * by lia.
    apply IH; [intros k Hk; apply Hbelow; lia | exact Hat | lia].
Qed.

(** While no size overflows the loop goes on. *)
Lemma fit_loop_goes_on (strings : list string) (aw ah : spec_float) :
  strings <> [] ->
  forall (fuel : nat) (n : Z),
    (forall k, n <= k -> overflows_at aw ah strings k = false) ->
    fit_loop fuel strings aw ah n = None.
Proof.
  intros Hne. induction fuel as [|fuel IH]; intros n H; [reflexivity|].
  rewrite fit_loop_step by exact Hne. rewrite H by lia.
  apply IH. intros k Hk. apply H. lia.
Qed.

(** Below a size that overflows there is a first one. *)
Lemma first_overflow (aw ah : spec_float) (strings : list string) :
  forall (d : nat) (n : Z),
    overflows_at aw ah strings (n + Z.of_nat d) = true ->
    exists d' : nat,
      (d' <= d)%nat
      /\ overflows_at aw ah strings (n + Z.of_nat d') = true
      /\ forall k, n <= k < n + Z.of_nat d' -> overflows_at aw ah strings k = false.
Proof.
  induction d as [|d IH]; intros n H.
  - exists 0%nat. split; [lia|]. split; [exact H|]. intros k Hk. lia.
  - destruct (overflows_at aw ah strings n) eqn:E.
    + exists 0%nat. split; [lia|]. rewrite Z.add_0_r.
      split; [exact E|]. intros k Hk. lia.
    + replace (n + Z.of_nat (S d)) with (n + 1 + Z.of_nat d) in H by lia.
      destruct (IH (n + 1) H) as (d' & Hd' & Hat & Hbelow).
      exists (S d'). split; [lia|].
      replace (n + Z.of_nat (S d')) with (n + 1 + Z.of_nat d') by lia.
      split; [exact Hat|].
      intros k Hk. destruct (Z.eq_dec k n) as [->|Hne]; [exact E|].
      apply Hbelow. lia.
Qed.

(** C1, as the code has it: when some size from 1 up overflows, the search
    stops, at the first size whose block overflows the padded space (in
    total height or in the widest line), and the selected size is one step
    below it: every size from 1 to the selected one fits and the next one
    overflows.  When the block fits at size 1 the selected size is at least 1
    and fits; and when the metrics grow with the font size, every size above
    the selected one overflows. *)
Theorem selected_size_is_maximal (strings : list string)
    (screen_width screen_height : Z) (horizontal_padding vertical_padding : spec_float)
    (available_width available_height : spec_float) (n : Z) :
  strings <> [] ->
  available screen_width horizontal_padding = Ok available_width ->
  available screen_height vertical_padding = Ok available_height ->
  1 <= n ->
  overflows_at available_width available_height strings n = true ->
  exists (fuel : nat) (selected : Z),
    (forall fuel', (fuel <= fuel')%nat ->
       draw_centered_text fuel' strings screen_width screen_height
         horizontal_padding vertical_padding = Some (Ok selected))
    /\ 0 <= selected < n
    /\ overflows_at available_width available_height strings (selected + 1) = true
    /\ (forall k, 1 <= k <= selected ->
          overflows_at available_width available_height strings k = false)
    /\ (overflows_at available_width available_height strings 1 = false ->
        1 <= selected
        /\ overflows_at available_width available_height strings selected = false)
    /\ (monotone_metrics strings ->
        forall k, selected < k ->
          overflows_at available_width available_height strings k = true).
Proof.
  intros Hne Haw Hah Hn Hover.
  destruct (first_overflow available_width available_height strings (Z.to_nat (n - 1)) 1)
    as (d & Hd & Hat & Hbelow).
  { replace (1 + Z.of_nat (Z.to_nat (n - 1))) with n by lia. exact Hover. }
  exists (S d), (Z.of_nat d).
  replace (Z.of_nat d + 1) with (1 + Z.of_nat d) by lia.
  split; [|split; [lia|split; [exact Hat|split; [|split]]]].
  - intros fuel' Hfuel. unfold draw_centered_text. rewrite Haw, Hah.
    rewrite (fit_loop_first strings available_width available_height Hne d 1 fuel')
      by (try assumption; lia).
    do 2 f_equal. lia.
  - intros k Hk. apply Hbelow. lia.
  - intros H1. assert (d <> 0%nat).
    { intros ->. rewrite Z.add_0_r in Hat. congruence. }
    split; [lia|]. apply Hbelow. lia.
  - intros Hmono k Hk.
    apply (overflows_at_mono _ _ _ (1 + Z.of_nat d) k Hmono); [lia | exact Hat].
Qed.

(** *** No lines *)

Lemma append_empty_r (s : string) : (s ++ EmptyString)%string = s.
Proof. induction s as [|c s IH]; cbn; [reflexivity | now rewrite IH]. Qed.

Lemma append_assoc (s t u : string) : ((s ++ t) ++ u)%string = (s ++ (t ++ u))%string.
Proof. induction s as [|c s IH]; cbn; [reflexivity | now rewrite IH]. Qed.

(** The first piece of a split starts with what had been read of it. *)
Lemma split_from_head (sep : string) (s : string) :
  forall (skip : nat) (cur : string),
    exists w rest, split_from sep skip cur s = (cur ++ w)%string :: rest.
Proof.
  induction s as [|c s IH]; intros skip cur.
  - exists EmptyString, []. cbn. now rewrite append_empty_r.
  - cbn [split_from]. destruct skip as [|k]; [|apply IH].
    destruct (String.prefix sep (String c s)).
    + exists EmptyString, (split_from sep (String.length sep - 1) EmptyString s).
      now rewrite append_empty_r.
    + destruct (IH 0%nat (cur ++ String c EmptyString)%string) as (w & rest & E).
      exists (String c w), rest. rewrite E. now rewrite append_assoc.
Qed.

Lemma only_comments_is_text (par : string) :
  only_comments par -> startswith par "@" = false.
Proof.
  unfold only_comments. destruct par as [|c par]; [reflexivity|].
  rewrite startswith_char. destruct (Ascii.eqb "@" c) eqn:E; [|reflexivity].
  apply Ascii.eqb_eq in E as <-. intros H.
  unfold split in H. cbn [split_from] in H.
  change (String.prefix LF (String "@" par)) with false in H.
  destruct (split_from_head LF par 0 (EmptyString ++ "@")%string) as (w & rest & E).
  rewrite E in H. inversion H as [|? ? Hhead _]. discriminate Hhead.
Qed.

Lemma text_lines_only_comments (lines : list string) :
  Forall (fun line => startswith line "#" = true) lines -> text_lines lines = [].
Proof.
  induction 1 as [|line lines Hline _ IH]; [reflexivity|].
  destruct line as [|c line]; [discriminate Hline|].
  rewrite startswith_char, Ascii.eqb_sym in Hline.
  cbn [text_lines]. now rewrite Hline.
Qed.

(** C9: on an empty sequence of lines the search of draw_centered_text
    fails in its first iteration, with the [ValueError] of a maximum over
    nothing, whatever the font size and the available space; the function
    then raises it once the available space is computed and never returns a
    font size.  This is reachable from the program: a paragraph whose every
    line begins with [#] is parsed into a text slide without lines, as the
    deck [#one], [#two] is, and drawing that slide raises. *)
Theorem empty_lines_fail :
  (forall (fuel : nat) (aw ah : spec_float) (size : Z),
      fit_loop (S fuel) [] aw ah size = Some (Raise ValueError))
  /\ (forall (fuel : nat) (screen_width screen_height : Z) (hp vp : spec_float),
        draw_centered_text (S fuel) [] screen_width screen_height hp vp
        = match available screen_width hp, available screen_height vp with
          | Raise e, _ => Some (Raise e)
          | Ok _, Raise e => Some (Raise e)
          | Ok _, Ok _ => Some (Raise ValueError)
          end)
  /\ (forall (fuel : nat) (screen_width screen_height : Z) (hp vp : spec_float)
             (font : Z),
        draw_centered_text fuel [] screen_width screen_height hp vp <> Some (Ok font))
  /\ (forall par : string,
        only_comments par -> slide_of_paragraph par = Ok (TextSlide []))
  /\ parse deck_only_comments = Ok (Presentation.mk [TextSlide []] 0)
  /\ Slide.get_content (TextSlide []) = Slide.Lines []
  /\ (forall fuel : nat,
        draw_current (S fuel) (Presentation.mk [TextSlide []] 0) 1920 1080
        = Some (Raise ValueError))
  /\ (forall (fuel : nat) (screen_width screen_height : Z) (f : frame),
        draw_current fuel (Presentation.mk [TextSlide []] 0) screen_width screen_height
        <> Some (Ok f)).
Proof.
  assert (Hdraw : forall fuel screen_width screen_height hp vp,
             draw_centered_text (S fuel) [] screen_width screen_height hp vp
             = match available screen_width hp, available screen_height vp with
               | Raise e, _ => Some (Raise e)
               | Ok _, Raise e => Some (Raise e)
               | Ok _, Ok _ => Some (Raise ValueError)
               end).
  { intros. unfold draw_centered_text.
    destruct (available screen_width hp); [|reflexivity].
    destruct (available screen_height vp); reflexivity. }
  assert (Hnever : forall fuel screen_width screen_height hp vp font,
             draw_centered_text fuel [] screen_width screen_height hp vp
             <> Some (Ok font)).
  { intros [|fuel] sw sh hp vp font.
    - unfold draw_centered_text.
      destruct (available sw hp); [|discriminate].
      destruct (available sh vp); discriminate.
    - rewrite Hdraw.
      destruct (available sw hp); [|discriminate].
      destruct (available sh vp); discriminate. }
  split; [reflexivity|]. split; [exact Hdraw|]. split; [exact Hnever|].
  split; [|split; [reflexivity|split; [reflexivity|split]]].
  - intros par Hpar.
    rewrite (slide_of_text_paragraph par (only_comments_is_text par Hpar)).
    now rewrite (text_lines_only_comments _ Hpar).
  - intros fuel. unfold draw_current.
    change (Presentation.get_current_slide (Presentation.mk [TextSlide []] 0))
      with (Ok (TextSlide [])).
    cbn [Slide.get_content TextSlide Slide._image Slide._lines].
    rewrite Hdraw.
    replace (available 1920 f0_1)
      with (Ok (S754_finite false 6755399441055744 (-42))) by (vm_compute; reflexivity).
    replace (available 1080 f0_1)
      with (Ok (S754_finite false 7599824371187712 (-43))) by (vm_compute; reflexivity).
    reflexivity.
  - intros fuel sw sh f. unfold draw_current.
    change (Presentation.get_current_slide (Presentation.mk [TextSlide []] 0))
      with (Ok (TextSlide [])).
    cbn [Slide.get_content TextSlide Slide._image Slide._lines].
    pose proof (Hnever fuel sw sh f0_1 f0_1) as H.
    destruct (draw_centered_text fuel [] sw sh f0_1 f0_1) as [[font|e]|];
      [|discriminate|discriminate].
    now elim (H font).
Qed.

End TextFit.

(** C1 for the lines [hello], [world] on a 100 by 100 screen, where 80.0
    by 80.0 is available: size 17 overflows, the block fits at size 1, and
    the size selected is at least 1 and below 17. *)
Lemma selected_size_is_maximal_witness :
  let pg := Demo.pygame [] in
  let strings := ["hello"%string; "world"%string] in
  let space := S754_finite false 5629499534213120 (-46) in
  strings <> []
  /\ available 100 f0_1 = Ok space
  /\ 1 <= 17
  /\ overflows_at space space strings 17 = true
  /\ overflows_at space space strings 1 = false
  /\ exists (fuel : nat) (selected : Z),
       (forall fuel', (fuel <= fuel')%nat ->
          draw_centered_text fuel' strings 100 100 f0_1 f0_1 = Some (Ok selected))
       /\ 1 <= selected < 17
       /\ overflows_at space space strings selected = false
       /\ overflows_at space space strings (selected + 1) = true.
Proof.
  intros pg strings space.
  assert (Hne : strings <> []) by discriminate.
  assert (Hav : available 100 f0_1 = Ok space) by (vm_compute; reflexivity).
  assert (Hn : 1 <= 17) by lia.
  assert (H17 : overflows_at space space strings 17 = true) by (vm_compute; reflexivity).
  assert (H1 : overflows_at space space strings 1 = false) by (vm_compute; reflexivity).
  split; [exact Hne|]. split; [exact Hav|]. split; [exact Hn|].
  split; [exact H17|]. split; [exact H1|].
  destruct (selected_size_is_maximal (pg := pg) strings 100 100 f0_1 f0_1 space space 17
              Hne Hav Hav Hn H17)
    as (fuel & selected & Hdraw & Hrange & Hnext & _ & Hfit & _).
  exists fuel, selected.
  split; [exact Hdraw|]. destruct (Hfit H1) as [Hsel Hfits].
  split; [lia|]. split; [exact Hfits | exact Hnext].
Defined.

(** C1 as the claim words it fails, in two ways.  On a 10 by 10 screen the
    line [hello world] overflows the 8.0 by 8.0 available already at size 1:
    the loop leaves in its first iteration and the selected size is 0, a size
    at which the block does not fit.  And with a font whose size 3 renders
    narrower than its size 2, the line [abcd] on a 16 by 16 screen gets the
    selected size 1, while the larger size 3 causes no overflow. *)
Lemma selected_size_counterexample :
  (let pg := Demo.pygame [] in
   let strings := ["hello world"%string] in
   exists space,
     available 10 f0_1 = Ok space
     /\ (forall fuel : nat,
           draw_centered_text (S fuel) strings 10 10 f0_1 f0_1 = Some (Ok 0))
     /\ overflows_at space space strings 0 = true)
  /\ (let pg := hinted_pygame in
      let strings := ["abcd"%string] in
      exists space,
        available 16 f0_1 = Ok space
        /\ (forall fuel : nat,
              draw_centered_text (S (S fuel)) strings 16 16 f0_1 f0_1 = Some (Ok 1))
        /\ overflows_at space space strings 3 = false).
Proof.
  split.
  - intros pg strings. eexists.
    split; [vm_compute; reflexivity|].
    split; [intros fuel; vm_compute; reflexivity | vm_compute; reflexivity].
  - intros pg strings. eexists.
    split; [vm_compute; reflexivity|].
    split; [intros fuel; vm_compute; reflexivity | vm_compute; reflexivity].
Qed.

(** C9 at the deck [#one], [#two]: every line is a comment and the slide
    has no lines. *)
Lemma empty_lines_fail_witness :
  let pg := Demo.pygame [] in
  only_comments deck_only_comments
  /\ slide_of_paragraph deck_only_comments = Ok (TextSlide []).
Proof.
  intros pg.
  assert (H : only_comments deck_only_comments) by (repeat constructor).
  split; [exact H|].
  exact (proj1 (proj2 (proj2 (proj2 empty_lines_fail))) deck_only_comments H).
Defined.

(** * Further properties *)

(** ** More on the presentation controller *)

Section ControllerMore.
Context {pg : Pygame}.

Lemma getitem_front {A : Type} (l : list A) (i : Z) (a : A) :
  0 <= i -> nth_error l (Z.to_nat i) = Some a -> getitem l i = Ok a.
Proof.
  intros Hi Hnth. unfold getitem.
  assert (Hlt : (Z.to_nat i < List.length l)%nat)
    by (apply nth_error_Some; congruence).
  replace (i <? 0) with false by (symmetry; apply Z.ltb_ge; lia).
  replace ((0 <=? i) && (i <? Z.of_nat (List.length l))) with true
    by (symmetry; apply andb_true_iff; split;
        [apply Z.leb_le | apply Z.ltb_lt]; lia).
  now rewrite Hnth.
Qed.

Lemma getitem_empty {A : Type} (i : Z) : getitem (@nil A) i = Raise IndexError.
Proof.
  unfold getitem. cbn [List.length Z.of_nat].
  destruct (i <? 0) eqn:E.
  - replace ((0 <=? 0 + i) && (0 + i <? 0)) with false; [reflexivity|].
    symmetry. apply andb_false_iff. left. apply Z.leb_gt. apply Z.ltb_lt in E. lia.
  - replace ((0 <=? i) && (i <? 0)) with false; [reflexivity|].
    symmetry. apply andb_false_iff. right. exact E.
Qed.

Lemma next_times_closed_form (n : nat) (p : Presentation.t) :
  Presentation._current_slide p <= count p - 1 ->
  Presentation._slides (next_times n p) = Presentation._slides p
  /\ Presentation._current_slide (next_times n p)
     = Z.min (Presentation._current_slide p + Z.of_nat n) (count p - 1).
Proof.
  intros Hc. unfold next_times. induction n as [|n [IHs IHc]].
  - cbn. split; [reflexivity | lia].
  - rewrite Nat.iter_succ. set (q := Nat.iter n Presentation.next p) in *. clearbody q.
    unfold Presentation.next.
    cbn [Presentation._slides Presentation._current_slide].
    split; [exact IHs|]. rewrite IHc, IHs. unfold count. lia.
Qed.

Lemma prev_times_closed_form (n : nat) (p : Presentation.t) :
  0 <= Presentation._current_slide p ->
  Presentation._slides (prev_times n p) = Presentation._slides p
  /\ Presentation._current_slide (prev_times n p)
     = Z.max (Presentation._current_slide p - Z.of_nat n) 0.
Proof.
  intros Hc. unfold prev_times. induction n as [|n [IHs IHc]].
  - cbn. split; [reflexivity | lia].
  - rewrite Nat.iter_succ. set (q := Nat.iter n Presentation.prev p) in *. clearbody q.
    unfold Presentation.prev.
    cbn [Presentation._slides Presentation._current_slide].
    split; [exact IHs|]. rewrite IHc. lia.
Qed.

(** X1: away from the ends [next] and [prev] undo each other.  With the
    cursor on a slide, [prev] after [next] gives back the presentation
    unless the cursor was on the last slide, and [next] after [prev] gives
    it back unless the cursor was on slide 0. *)
Theorem next_prev_undo (p : Presentation.t) :
  on_a_slide p ->
  (Presentation._current_slide p < count p - 1 ->
   Presentation.prev (Presentation.next p) = p)
  /\ (0 < Presentation._current_slide p ->
      Presentation.next (Presentation.prev p) = p)
  /\ (Presentation._current_slide p = count p - 1 ->
      Presentation.next p = p)
  /\ (Presentation._current_slide p = 0 -> Presentation.prev p = p).
Proof.
  unfold on_a_slide, count. destruct p as [slides c].
  unfold Presentation.next, Presentation.prev.
  cbn [Presentation._slides Presentation._current_slide].
  intros Hc. repeat split; intros H; f_equal; lia.
Qed.

(** X2: pressing a key [n] times.  With the cursor on a slide, [n] calls
    of [next] move it to [min(index + n, N - 1)] and [n] calls of [prev] to
    [max(index - n, 0)], the slides staying as they are; so [N - 1] or more
    calls of [next] end on the last slide and as many calls of [prev] on
    slide 0, from wherever the cursor was. *)
Theorem repeated_navigation (p : Presentation.t) (n : nat) :
  on_a_slide p ->
  Presentation._slides (next_times n p) = Presentation._slides p
  /\ Presentation._slides (prev_times n p) = Presentation._slides p
  /\ Presentation._current_slide (next_times n p)
     = Z.min (Presentation._current_slide p + Z.of_nat n) (count p - 1)
  /\ Presentation._current_slide (prev_times n p)
     = Z.max (Presentation._current_slide p - Z.of_nat n) 0
  /\ (count p - 1 <= Z.of_nat n ->
      Presentation._current_slide (next_times n p) = count p - 1
      /\ Presentation._current_slide (prev_times n p) = 0).
Proof.
  unfold on_a_slide. intros Hc.
  destruct (next_times_closed_form n p) as [Hns Hnc]; [lia|].
  destruct (prev_times_closed_form n p) as [Hps Hpc]; [lia|].
  split; [exact Hns|]. split; [exact Hps|].
  split; [exact Hnc|]. split; [exact Hpc|].
  intros Hn. rewrite Hnc, Hpc. lia.
Qed.

(** X3: reading the current slide.  Without slides [get_current_slide]
    raises [IndexError] whatever the cursor is.  With the cursor on a slide
    it returns that slide, and [add_slide] changes neither the cursor nor
    the slide returned; the slide added is the one returned once [next] was
    called often enough. *)
Theorem current_slide_and_add_slide (p : Presentation.t) (slide : Slide.t) :
  (Presentation._slides p = [] ->
   Presentation.get_current_slide p = Raise IndexError)
  /\ (on_a_slide p ->
      (exists shown,
          nth_error (Presentation._slides p)
                    (Z.to_nat (Presentation._current_slide p)) = Some shown
          /\ Presentation.get_current_slide p = Ok shown
          /\ Presentation.get_current_slide (Presentation.add_slide p slide) = Ok shown)
      /\ on_a_slide (Presentation.add_slide p slide))
  /\ (forall n : nat,
        0 <= Presentation._current_slide p <= count p ->
        count p - Presentation._current_slide p <= Z.of_nat n ->
        Presentation.get_current_slide
          (next_times n (Presentation.add_slide p slide)) = Ok slide).
Proof.
  split; [|split].
  - intros H. unfold Presentation.get_current_slide. rewrite H. apply getitem_empty.
  - unfold on_a_slide, count. intros Hc.
    destruct (nth_error (Presentation._slides p)
                (Z.to_nat (Presentation._current_slide p))) as [shown|] eqn:E.
    + split.
      * exists shown. split; [reflexivity|].
        unfold Presentation.get_current_slide. split.
        -- apply getitem_front; [lia | exact E].
        -- apply getitem_front; [cbn; lia|]. cbn.
           rewrite nth_error_app1; [exact E|]. lia.
      * unfold Presentation.add_slide.
        cbn [Presentation._slides Presentation._current_slide].
        rewrite length_app. cbn. lia.
    + apply nth_error_None in E. lia.
  - intros n Hc Hn.
    pose proof (count_add_slide p slide) as Hcount.
    destruct (next_times_closed_form n (Presentation.add_slide p slide)) as [Hs Hcur].
    { rewrite Hcount. cbn. lia. }
    unfold Presentation.get_current_slide. rewrite Hs, Hcur, Hcount.
    cbn [Presentation.add_slide Presentation._current_slide Presentation._slides].
    replace (Z.min (Presentation._current_slide p + Z.of_nat n) (count p + 1 - 1))
      with (count p) by lia.
    apply getitem_front; [unfold count; lia|].
    unfold count. rewrite Nat2Z.id.
    rewrite nth_error_app2 by lia. now rewrite Nat.sub_diag.
Qed.

End ControllerMore.

(** X1 on two slides with the cursor on the first. *)
Lemma next_prev_undo_witness :
  let pg := Demo.pygame [] in
  let p := Presentation.mk [TextSlide ["a"%string]; TextSlide ["b"%string]] 0 in
  on_a_slide p
  /\ Presentation._current_slide p < count p - 1
  /\ Presentation.prev (Presentation.next p) = p.
Proof.
  intros pg p.
  assert (H1 : on_a_slide p) by (unfold on_a_slide; cbn; lia).
  assert (H2 : Presentation._current_slide p < count p - 1) by (cbn; lia).
  split; [exact H1|]. split; [exact H2|].
  exact (proj1 (next_prev_undo p H1) H2).
Defined.

(** X2 on three slides: five calls of [next] from slide 0 end on slide 2. *)
Lemma repeated_navigation_witness :
  let pg := Demo.pygame [] in
  let p := Presentation.mk
             [TextSlide ["a"%string]; TextSlide ["b"%string]; TextSlide ["c"%string]] 0 in
  on_a_slide p
  /\ count p - 1 <= Z.of_nat 5
  /\ Presentation._current_slide (next_times 5 p) = count p - 1.
Proof.
  intros pg p.
  assert (H1 : on_a_slide p) by (unfold on_a_slide; cbn; lia).
  assert (H2 : count p - 1 <= Z.of_nat 5) by (cbn; lia).
  split; [exact H1|]. split; [exact H2|].
  exact (proj1 (proj2 (proj2 (proj2 (proj2 (repeated_navigation p 5 H1)))) H2)).
Defined.

(** X3 on one slide: the slide is still the one shown after [add_slide],
    and the added one is shown after one [next]. *)
Lemma current_slide_and_add_slide_witness :
  let pg := Demo.pygame [] in
  let p := Presentation.mk [TextSlide ["a"%string]] 0 in
  let added := TextSlide ["b"%string] in
  on_a_slide p
  /\ count p - Presentation._current_slide p <= Z.of_nat 1
  /\ Presentation.get_current_slide (next_times 1 (Presentation.add_slide p added))
     = Ok added.
Proof.
  intros pg p added.
  assert (H1 : on_a_slide p) by (unfold on_a_slide; cbn; lia).
  assert (H2 : count p - Presentation._current_slide p <= Z.of_nat 1) by (cbn; lia).
  split; [exact H1|]. split; [exact H2|].
  apply (proj2 (proj2 (current_slide_and_add_slide p added)) 1%nat); [cbn; lia | exact H2].
Defined.

(** ** More on the deck parser *)

Section ParserMore.
Context {pg : Pygame}.

Lemma split_not_empty (s sep : string) : split s sep <> [].
Proof.
  unfold split. destruct (split_from_head sep s 0 EmptyString) as (w & rest & E).
  rewrite E. discriminate.
Qed.

(** The loop returns the slides of the paragraphs when each one gives a
    slide. *)
Lemma for_in_parse_paragraph_ok (pars : list string) (slides : list Slide.t) :
  Forall2 (fun par slide => slide_of_paragraph par = Ok slide) pars slides ->
  forall p : Presentation.t,
    for_in pars parse_paragraph p
    = Ok (Presentation.mk (Presentation._slides p ++ slides)
                          (Presentation._current_slide p)).
Proof.
  induction 1 as [|par slide pars slides Hpar _ IH]; intros p; cbn [for_in].
  - rewrite app_nil_r. now destruct p.
  - unfold parse_paragraph at 1. rewrite Hpar. cbn [Py.bind].
    rewrite IH. cbn. now rewrite <- app_assoc.
Qed.

(** When the loop raises, a first paragraph failed. *)
Lemma for_in_parse_paragraph_raise (pars : list string) (e : exc) :
  forall p : Presentation.t,
    for_in pars parse_paragraph p = Raise e ->
    exists before par after slides,
      pars = before ++ par :: after
      /\ Forall2 (fun par slide => slide_of_paragraph par = Ok slide) before slides
      /\ slide_of_paragraph par = Raise e.
Proof.
  induction pars as [|par pars IH]; intros p H; cbn [for_in] in H; [discriminate|].
  unfold parse_paragraph in H at 1.
  destruct (slide_of_paragraph par) as [slide|e'] eqn:E; cbn [Py.bind] in H.
  - apply IH in H as (before & par' & after & slides & -> & HF & Hpar').
    exists (par :: before), par', after, (slide :: slides).
    split; [reflexivity|]. split; [now constructor | exact Hpar'].
  - injection H as ->. exists [], par, pars, [].
    split; [reflexivity|]. split; [constructor | exact E].
Qed.

(** X4: what [parse] returns can be shown.  A presentation returned by
    [parse] has one slide for each paragraph of the file, so at least one,
    and its cursor is 0, on a slide: [get_current_slide] returns the first
    slide. *)
Theorem parse_gives_a_first_slide (contents : string) (p : Presentation.t) :
  parse contents = Ok p ->
  List.length (Presentation._slides p)
  = List.length (split contents (LF ++ LF)%string)
  /\ Presentation._slides p <> []
  /\ Presentation._current_slide p = 0
  /\ on_a_slide p
  /\ exists first rest,
       Presentation._slides p = first :: rest
       /\ Presentation.get_current_slide p = Ok first.
Proof.
  intros H. apply parse_slides in H as (slides & HF & ->).
  pose proof (split_not_empty contents (LF ++ LF)%string) as Hne.
  pose proof (Forall2_length HF) as Hlen.
  cbn [Presentation._slides Presentation._current_slide].
  destruct slides as [|first rest].
  { destruct (split contents (LF ++ LF)%string); [congruence | discriminate]. }
  split; [now symmetry|]. split; [discriminate|]. split; [reflexivity|].
  split; [unfold on_a_slide, count; cbn; lia|].
  exists first, rest. split; reflexivity.
Qed.

(** X5: when [parse] returns and when it raises.  [parse] returns the
    presentation with the slides [slides] and the cursor 0 exactly when the
    paragraphs give these slides one by one; and it raises [e] exactly when
    some paragraph raises [e] while all the paragraphs before it gave a
    slide. *)
Theorem parse_returns_or_first_failure (contents : string) :
  (forall slides : list Slide.t,
      parse contents = Ok (Presentation.mk slides 0)
      <-> Forall2 (fun par slide => slide_of_paragraph par = Ok slide)
                  (split contents (LF ++ LF)%string) slides)
  /\ (forall e : exc,
        parse contents = Raise e
        <-> exists before par after slides,
              split contents (LF ++ LF)%string = before ++ par :: after
              /\ Forall2 (fun par slide => slide_of_paragraph par = Ok slide)
                         before slides
              /\ slide_of_paragraph par = Raise e).
Proof.
  split.
  - intros slides. split.
    + intros H. apply parse_slides in H as (slides' & HF & E).
      now injection E as ->.
    + intros HF. unfold parse. now rewrite (for_in_parse_paragraph_ok _ _ HF).
  - intros e. split.
    + intros H. now apply for_in_parse_paragraph_raise in H.
    + intros (before & par & after & slides & Hsplit & HF & Hpar).
      unfold parse. rewrite Hsplit, for_in_app.
      rewrite (for_in_parse_paragraph_ok _ _ HF). cbn [Py.bind for_in].
      unfold parse_paragraph at 1. now rewrite Hpar.
Qed.

Lemma text_paragraphs_slides (pars : list string) :
  forallb (fun par => negb (startswith par "@")) pars = true ->
  Forall2 (fun par slide => slide_of_paragraph par = Ok slide) pars
          (map (fun par => TextSlide (text_lines (split par LF))) pars).
Proof.
  induction pars as [|par pars IH]; cbn [forallb map]; intros H; [constructor|].
  apply andb_true_iff in H as [Hpar Hpars].
  constructor; [|now apply IH].
  apply slide_of_text_paragraph. now apply negb_true_iff.
Qed.

(** X6: a deck without images always parses.  When no paragraph begins
    with [@], [parse] returns, whatever pygame does, the presentation of
    the paragraphs' text slides in file order, with the cursor at 0. *)
Theorem parse_text_deck (contents : string) :
  forallb (fun par => negb (startswith par "@"))
          (split contents (LF ++ LF)%string) = true ->
  parse contents
  = Ok (Presentation.mk
          (map (fun par => TextSlide (text_lines (split par LF)))
               (split contents (LF ++ LF)%string)) 0).
Proof.
  intros H. unfold parse.
  now rewrite (for_in_parse_paragraph_ok _ _ (text_paragraphs_slides _ H)).
Qed.

End ParserMore.

(** X4 on the deck of the two comment lines. *)
Lemma parse_gives_a_first_slide_witness :
  let pg := Demo.pygame [] in
  parse deck_only_comments = Ok (Presentation.mk [TextSlide []] 0)
  /\ Presentation.get_current_slide (Presentation.mk [TextSlide []] 0) = Ok (TextSlide [])
  /\ on_a_slide (Presentation.mk [TextSlide []] 0).
Proof.
  intros pg.
  assert (H : parse deck_only_comments = Ok (Presentation.mk [TextSlide []] 0))
    by reflexivity.
  split; [exact H|]. split; [reflexivity|].
  exact (proj1 (proj2 (proj2 (proj2 (parse_gives_a_first_slide _ _ H))))).
Defined.

(** X6 on the deck [one], blank line, [#hidden], [two]. *)
Lemma parse_text_deck_witness :
  let pg := Demo.pygame [] in
  let contents := ("one" ++ LF ++ LF ++ "#hidden" ++ LF ++ "two")%string in
  forallb (fun par => negb (startswith par "@"))
          (split contents (LF ++ LF)%string) = true
  /\ parse contents
     = Ok (Presentation.mk [TextSlide ["one"%string]; TextSlide ["two"%string]] 0).
Proof.
  intros pg contents.
  assert (H : forallb (fun par => negb (startswith par "@"))
                      (split contents (LF ++ LF)%string) = true) by reflexivity.
  split; [exact H|].
  exact (parse_text_deck contents H).
Defined.

(** ** What the pieces of a split are *)

Section Pieces.
Context {pg : Pygame}.

Lemma no_space_snoc (w : string) (c : ascii) :
  no_space (w ++ String c EmptyString) = no_space w && negb (isspace c).
Proof.
  induction w as [|a w IH]; cbn [append no_space].
  - now rewrite andb_true_r.
  - rewrite IH. now rewrite andb_assoc.
Qed.

Lemma snoc_not_empty (w : string) (c : ascii) :
  (w ++ String c EmptyString)%string <> EmptyString.
Proof. destruct w; discriminate. Qed.

(** Every token of [s.split()] is a non-empty run without whitespace. *)
Lemma split_ws_from_tokens (s : string) :
  forall cur : option string,
    match cur with
    | Some w => w <> EmptyString /\ no_space w = true
    | None => True
    end ->
    Forall (fun token => token <> EmptyString /\ no_space token = true)
           (split_ws_from cur s).
Proof.
  induction s as [|c s IH]; intros cur Hcur; cbn [split_ws_from].
  - destruct cur; [constructor; [exact Hcur | constructor] | constructor].
  - destruct (isspace c) eqn:Ec.
    + destruct cur; [constructor; [exact Hcur|] |]; now apply IH.
    + destruct cur as [w|]; apply IH.
      * split; [apply snoc_not_empty|].
        rewrite no_space_snoc, Ec. now rewrite (proj2 Hcur).
      * split; [discriminate|]. cbn. now rewrite Ec.
Qed.

Lemma split_ws_from_started (s w : string) : split_ws_from (Some w) s <> [].
Proof.
  revert w. induction s as [|c s IH]; intros w; cbn [split_ws_from]; [discriminate|].
  destruct (isspace c); [discriminate | apply IH].
Qed.

Lemma split_ws_empty (s : string) : split_ws s = [] -> all_space s = true.
Proof.
  unfold split_ws. induction s as [|c s IH]; cbn [split_ws_from all_space];
    [reflexivity|].
  destruct (isspace c); [exact IH|].
  intros H. now apply split_ws_from_started in H.
Qed.

(** X7: the path of an image paragraph.  After the [@], a paragraph with
    nothing but whitespace raises [IndexError]; any other one hands pygame
    the path made of its first token, which is not empty and holds no
    whitespace, so that whatever follows the first whitespace after the
    path is ignored. *)
Theorem image_paragraph_path (rest : string) :
  (all_space rest = true ->
   slide_of_paragraph (String "@" rest) = Raise IndexError)
  /\ (all_space rest = false ->
      exists token others,
        split_ws rest = token :: others
        /\ token <> EmptyString
        /\ no_space token = true
        /\ slide_of_paragraph (String "@" rest)
           = Slide.set_image Slide.init (mkPath token)).
Proof.
  split.
  - intros H. apply slide_of_blank_image_paragraph.
    cbn [blank_image_paragraph]. now rewrite Ascii.eqb_refl, H.
  - intros H.
    destruct (split_ws rest) as [|token others] eqn:E.
    { apply split_ws_empty in E. congruence. }
    pose proof (split_ws_from_tokens rest None I) as HF.
    fold (split_ws rest) in HF. rewrite E in HF.
    inversion HF as [|? ? [Hne Hns] _].
    exists token, others. split; [reflexivity|].
    split; [exact Hne|]. split; [exact Hns|].
    unfold slide_of_paragraph.
    rewrite startswith_char, removeprefix_char, Ascii.eqb_refl, E.
    reflexivity.
Qed.

Lemma no_line_feed_snoc (w : string) (c : ascii) :
  no_line_feed (w ++ String c EmptyString)
  = no_line_feed w && negb (Ascii.eqb c (ascii_of_nat 10)).
Proof.
  induction w as [|a w IH]; cbn [append no_line_feed].
  - now rewrite andb_true_r.
  - rewrite IH. now rewrite andb_assoc.
Qed.

(** The pieces of [s.split("\n")] hold no line feed. *)
Lemma split_from_lines (s : string) :
  forall cur : string,
    no_line_feed cur = true ->
    Forall (fun line => no_line_feed line = true) (split_from LF 0 cur s).
Proof.
  induction s as [|c s IH]; intros cur Hcur; cbn [split_from].
  - constructor; [exact Hcur | constructor].
  - unfold LF at 1. cbn [String.prefix].
    destruct (ascii_dec (ascii_of_nat 10) c) as [<-|Hne].
    + rewrite prefix_empty. constructor; [exact Hcur|]. now apply IH.
    + apply IH. rewrite no_line_feed_snoc, Hcur.
      apply Ascii.eqb_neq in Hne. rewrite Ascii.eqb_sym in Hne. now rewrite Hne.
Qed.

Lemma text_lines_keep (lines : list string) :
  Forall (fun line => no_line_feed line = true) lines ->
  Forall (fun line => no_line_feed line = true) (text_lines lines)
  /\ (List.length (text_lines lines) <= List.length lines)%nat.
Proof.
  induction 1 as [|line lines Hline _ [IH1 IH2]]; [split; [constructor | reflexivity]|].
  destruct line as [|c line]; cbn [text_lines].
  - split; [now constructor | cbn; lia].
  - destruct (Ascii.eqb c "#"); [split; [exact IH1 | cbn; lia]|].
    cbn [no_line_feed] in Hline. apply andb_true_iff in Hline as [Hc Hrest].
    destruct (Ascii.eqb c "\").
    + split; [now constructor | cbn; lia].
    + split; [constructor; [cbn [no_line_feed]; now rewrite Hc, Hrest | exact IH1]
             | cbn; lia].
Qed.

(** X8: the lines of a text slide are lines.  For a paragraph that does
    not begin with [@], no line of the slide holds a line feed, and the
    slide has at most as many lines as the paragraph. *)
Theorem text_slide_lines (par : string) :
  startswith par "@" = false ->
  exists lines,
    slide_of_paragraph par = Ok (TextSlide lines)
    /\ Forall (fun line => no_line_feed line = true) lines
    /\ (List.length lines <= List.length (split par LF))%nat.
Proof.
  intros H. exists (text_lines (split par LF)).
  split; [now apply slide_of_text_paragraph|].
  apply text_lines_keep. now apply split_from_lines.
Qed.

(** *** Joining the pieces again *)

Lemma prefix_app (p : string) :
  forall s : string, String.prefix p s = true -> exists r, s = (p ++ r)%string.
Proof.
  induction p as [|a p IH]; intros s H.
  - now exists s.
  - destruct s as [|c s]; cbn [String.prefix] in H; [discriminate|].
    destruct (ascii_dec a c) as [->|]; [|discriminate].
    destruct (IH s H) as [r ->]. now exists r.
Qed.

Lemma split_from_skip (sep : string) (pre : string) :
  forall cur r : string,
    split_from sep (String.length pre) cur (pre ++ r) = split_from sep 0 cur r.
Proof.
  induction pre as [|a pre IH]; intros cur r; [reflexivity|].
  cbn [String.length append split_from]. apply IH.
Qed.

Lemma join_cons (sep piece : string) (rest : list string) :
  rest <> [] -> join sep (piece :: rest) = (piece ++ sep ++ join sep rest)%string.
Proof. destruct rest; [congruence | reflexivity]. Qed.

Lemma length_app_string (s t : string) :
  String.length (s ++ t) = (String.length s + String.length t)%nat.
Proof. induction s as [|c s IH]; cbn; [reflexivity | now rewrite IH]. Qed.

Lemma join_split_from (a : ascii) (sep' : string) (n : nat) :
  forall s cur : string,
    (String.length s <= n)%nat ->
    join (String a sep') (split_from (String a sep') 0 cur s) = (cur ++ s)%string.
Proof.
  induction n as [|n IH]; intros s cur Hlen.
  - destruct s; [|cbn in Hlen; lia].
    cbn [split_from join]. now rewrite append_empty_r.
  - destruct s as [|c s].
    { cbn [split_from join]. now rewrite append_empty_r. }
    cbn [split_from].
    destruct (String.prefix (String a sep') (String c s)) eqn:E.
    + apply prefix_app in E as [r E]. cbn [append] in E.
      injection E as -> ->.
      cbn [String.length]. rewrite Nat.sub_succ, Nat.sub_0_r, split_from_skip.
      destruct (split_from_head (String a sep') r 0 EmptyString) as (w & rest & Hhead).
      rewrite join_cons by (rewrite Hhead; discriminate).
      rewrite IH.
      * reflexivity.
      * cbn [String.length] in Hlen. rewrite length_app_string in Hlen. lia.
    + rewrite IH by (cbn [String.length] in Hlen; lia).
      now rewrite append_assoc.
Qed.

(** X9: splitting loses nothing.  The paragraphs of a file joined by blank
    lines are the file again, and the lines of a paragraph joined by line
    feeds are the paragraph again. *)
Theorem split_then_join (s : string) :
  join (LF ++ LF) (split s (LF ++ LF)%string) = s
  /\ join LF (split s LF) = s.
Proof.
  unfold split. split.
  - exact (join_split_from (ascii_of_nat 10) LF (String.length s) s EmptyString
             (Nat.le_refl _)).
  - exact (join_split_from (ascii_of_nat 10) EmptyString (String.length s) s EmptyString
             (Nat.le_refl _)).
Qed.

End Pieces.

(** X8 on the paragraph [#note], [visible]. *)
Lemma text_slide_lines_witness :
  let pg := Demo.pygame [] in
  startswith deck_comment "@" = false
  /\ exists lines,
       slide_of_paragraph deck_comment = Ok (TextSlide lines)
       /\ Forall (fun line => no_line_feed line = true) lines
       /\ (List.length lines <= List.length (split deck_comment LF))%nat.
Proof.
  intros pg.
  assert (H : startswith deck_comment "@" = false) by reflexivity.
  split; [exact H|].
  exact (text_slide_lines deck_comment H).
Defined.

(** X7 on the paragraph [@pic.png extra]: the path is [pic.png]. *)
Lemma image_paragraph_path_witness :
  let pg := Demo.pygame [("pic.png"%string, (2, 3))] in
  all_space "pic.png extra" = false
  /\ exists token others,
       split_ws "pic.png extra" = token :: others
       /\ token <> EmptyString
       /\ no_space token = true
       /\ slide_of_paragraph "@pic.png extra"
          = Slide.set_image Slide.init (mkPath token).
Proof.
  intros pg.
  assert (H : all_space "pic.png extra" = false) by reflexivity.
  split; [exact H|].
  exact (proj2 (image_paragraph_path "pic.png extra") H).
Defined.

(** ** The display loop *)

Section LoopProps.
Context {pg : Pygame}.

Lemma handle_slides (st : Loop.state) (ev : Loop.event) :
  Presentation._slides (Loop.pres (Loop.handle st ev))
  = Presentation._slides (Loop.pres st).
Proof. destruct ev as [| | [] |]; reflexivity. Qed.

Lemma handle_on_a_slide (st : Loop.state) (ev : Loop.event) :
  on_a_slide (Loop.pres st) -> on_a_slide (Loop.pres (Loop.handle st ev)).
Proof.
  unfold on_a_slide, count.
  destruct ev as [| | [] |]; cbn [Loop.handle Loop.pres]; try (intros H; exact H).
  - unfold Presentation.next. cbn [Presentation._current_slide Presentation._slides]. lia.
  - unfold Presentation.prev. cbn [Presentation._current_slide Presentation._slides]. lia.
Qed.

Lemma handle_stopped (st : Loop.state) (ev : Loop.event) :
  Loop.running st = false -> Loop.running (Loop.handle st ev) = false.
Proof. destruct ev as [| | [] |]; cbn; auto. Qed.

Lemma fold_handle_inv (events : list Loop.event) :
  forall st : Loop.state,
    Presentation._slides (Loop.pres (fold_left Loop.handle events st))
    = Presentation._slides (Loop.pres st)
    /\ (on_a_slide (Loop.pres st) ->
        on_a_slide (Loop.pres (fold_left Loop.handle events st)))
    /\ (Loop.running st = false ->
        Loop.running (fold_left Loop.handle events st) = false).
Proof.
  induction events as [|ev events IH]; intros st; cbn [fold_left].
  - split; [reflexivity | split; auto].
  - destruct (IH (Loop.handle st ev)) as (Hs & Hon & Hrun).
    split; [now rewrite Hs, handle_slides|].
    split; [intros H; apply Hon; now apply handle_on_a_slide|].
    intros H. apply Hrun. now apply handle_stopped.
Qed.

(** The state the loop is left in is the one reached by handling events,
    and it drew at most one frame for each batch. *)
Lemma run_state (fuel : nat) (batches : list (list Loop.event)) :
  forall (st st' : Loop.state) (frames : list frame),
    Loop.run fuel batches st = Some (Ok (st', frames)) ->
    (exists events, st' = fold_left Loop.handle events st)
    /\ (List.length frames <= List.length batches)%nat.
Proof.
  induction batches as [|events rest IH]; intros st st' frames H; cbn [Loop.run] in H.
  - injection H as <- <-. split; [now exists [] | cbn; lia].
  - destruct (Loop.running st).
    + unfold Loop.pass in H.
      destruct (draw_current fuel _ _ _) as [[f|e]|]; try discriminate.
      destruct (Loop.run fuel rest (fold_left Loop.handle events st))
        as [[[st'' frames']|e]|] eqn:E; try discriminate.
      injection H as <- <-.
      destruct (IH _ _ _ E) as [[events' ->] Hlen].
      split; [|cbn; lia].
      exists (events ++ events'). now rewrite fold_left_app.
    + injection H as <- <-. split; [now exists [] | cbn; lia].
Qed.

(** X10: the loop always has a slide to show.  From a presentation that
    [parse] returned, whatever events are handled, the slides stay the ones
    parsed and the cursor stays on one of them, so that
    [get_current_slide] returns a slide of the deck; and so it is in the
    state [main] is left in, after at most one frame for each batch of
    events. *)
Theorem loop_always_has_a_slide (contents : string) (p : Presentation.t) :
  parse contents = Ok p ->
  (forall (w h : Z) (events : list Loop.event),
      let st := fold_left Loop.handle events (Loop.mk p w h true) in
      Presentation._slides (Loop.pres st) = Presentation._slides p
      /\ on_a_slide (Loop.pres st)
      /\ exists slide,
           Presentation.get_current_slide (Loop.pres st) = Ok slide
           /\ In slide (Presentation._slides p))
  /\ (forall (fuel : nat) (w h : Z) (batches : list (list Loop.event))
             (st : Loop.state) (frames : list frame),
        Loop.main fuel contents w h batches = Some (Ok (st, frames)) ->
        Presentation._slides (Loop.pres st) = Presentation._slides p
        /\ on_a_slide (Loop.pres st)
        /\ (List.length frames <= List.length batches)%nat).
Proof.
  intros Hparse.
  assert (Hon : on_a_slide p).
  { apply parse_slides in Hparse as (slides & HF & ->).
    pose proof (split_not_empty contents (LF ++ LF)%string) as Hne.
    destruct slides as [|s slides].
    - inversion HF as [E|]. symmetry in E. contradiction.
    - unfold on_a_slide, count. cbn. lia. }
  split.
  - intros w h events st.
    destruct (fold_handle_inv events (Loop.mk p w h true)) as (Hs & Hkeep & _).
    fold st in Hs, Hkeep. cbn [Loop.pres] in Hs, Hkeep.
    specialize (Hkeep Hon).
    split; [exact Hs|]. split; [exact Hkeep|].
    unfold on_a_slide, count in Hkeep.
    destruct (nth_error (Presentation._slides (Loop.pres st))
                (Z.to_nat (Presentation._current_slide (Loop.pres st))))
      as [slide|] eqn:E.
    + exists slide. split.
      * unfold Presentation.get_current_slide. apply getitem_front; [lia | exact E].
      * rewrite <- Hs. now apply nth_error_In in E.
    + apply nth_error_None in E. lia.
  - intros fuel w h batches st frames H. unfold Loop.main in H. rewrite Hparse in H.
    destruct (run_state _ _ _ _ _ H) as [[events ->] Hlen].
    destruct (fold_handle_inv events (Loop.mk p w h true)) as (Hs & Hkeep & _).
    split; [exact Hs|]. split; [exact (Hkeep Hon) | exact Hlen].
Qed.

(** X11: quitting.  Once [running] is false no event sets it again.  When
    a batch holds a [QUIT] event or a [q] key, all its events are still
    handled and the frame of that pass is still drawn, and then the loop
    ends: the batches after it are never read. *)
Theorem quit_ends_the_loop (fuel : nat) (st : Loop.state)
    (events : list Loop.event) (rest : list (list Loop.event)) :
  (Loop.running st = false ->
   Loop.running (fold_left Loop.handle events st) = false
   /\ Loop.run fuel (events :: rest) st = Some (Ok (st, [])))
  /\ (Loop.running st = true ->
      existsb asks_to_quit events = true ->
      Loop.running (fold_left Loop.handle events st) = false
      /\ Loop.run fuel (events :: rest) st
         = match Loop.pass fuel st events with
           | None => None
           | Some (Raise e) => Some (Raise e)
           | Some (Ok (st', f)) => Some (Ok (st', [f]))
           end).
Proof.
  split.
  - intros Hrun. split; [now apply fold_handle_inv|].
    cbn [Loop.run]. now rewrite Hrun.
  - intros Hrun Hquit.
    assert (Hstop : Loop.running (fold_left Loop.handle events st) = false).
    { clear Hrun. revert st. induction events as [|ev events IH]; intros st;
        cbn [existsb] in Hquit; [discriminate|].
      cbn [fold_left]. apply orb_true_iff in Hquit as [Hev|Hevents].
      - apply fold_handle_inv.
        destruct ev as [| | [] |]; try discriminate; reflexivity.
      - now apply IH. }
    split; [exact Hstop|].
    cbn [Loop.run]. rewrite Hrun. unfold Loop.pass.
    destruct (draw_current fuel _ _ _) as [[f|e]|]; try reflexivity.
    destruct rest as [|events' rest]; cbn [Loop.run]; [reflexivity|].
    now rewrite Hstop.
Qed.

Lemma fold_handle_no_resize (events : list Loop.event) :
  forall st : Loop.state,
    existsb is_resize events = false ->
    Loop.screen_width (fold_left Loop.handle events st) = Loop.screen_width st
    /\ Loop.screen_height (fold_left Loop.handle events st) = Loop.screen_height st.
Proof.
  induction events as [|ev events IH]; intros st H; cbn [fold_left]; [now split|].
  cbn [existsb] in H. apply orb_false_iff in H as [Hev Hevents].
  destruct (IH (Loop.handle st ev) Hevents) as [Hw Hh]. rewrite Hw, Hh.
  destruct ev as [| | [] |]; try discriminate; now split.
Qed.

(** X12: the size the slides are drawn at.  Events other than a resize
    leave the size alone, and after a resize the size is the one of the last
    resize event, whatever came before it. *)
Theorem last_resize_sets_the_size (st : Loop.state) (events later : list Loop.event)
    (w h : Z) :
  existsb is_resize later = false ->
  (let st' := fold_left Loop.handle later st in
   Loop.screen_width st' = Loop.screen_width st
   /\ Loop.screen_height st' = Loop.screen_height st)
  /\ (let st' := fold_left Loop.handle (events ++ Loop.VIDEORESIZE w h :: later) st in
      Loop.screen_width st' = w /\ Loop.screen_height st' = h).
Proof.
  intros H. split.
  - now apply fold_handle_no_resize.
  - cbv zeta. rewrite fold_left_app. cbn [fold_left].
    destruct (fold_handle_no_resize later
                (Loop.handle (fold_left Loop.handle events st) (Loop.VIDEORESIZE w h)) H)
      as [Hw Hh].
    now rewrite Hw, Hh.
Qed.

End LoopProps.

(** X10 on the deck [one], blank line, [two] after two presses of the
    right arrow. *)
Lemma loop_always_has_a_slide_witness :
  let pg := Demo.pygame [] in
  let contents := ("one" ++ LF ++ LF ++ "two")%string in
  let p := Presentation.mk [TextSlide ["one"%string]; TextSlide ["two"%string]] 0 in
  let st := fold_left Loop.handle
              [Loop.KEYDOWN Loop.K_RIGHT; Loop.KEYDOWN Loop.K_RIGHT]
              (Loop.mk p 800 600 true) in
  parse contents = Ok p
  /\ on_a_slide (Loop.pres st)
  /\ Presentation._current_slide (Loop.pres st) = 1.
Proof.
  intros pg contents p st.
  assert (H : parse contents = Ok p) by reflexivity.
  split; [exact H|]. split; [|reflexivity].
  exact (proj1 (proj2 (proj1 (loop_always_has_a_slide contents p H) 800 600
                         [Loop.KEYDOWN Loop.K_RIGHT; Loop.KEYDOWN Loop.K_RIGHT]))).
Defined.

(** X11 on a batch with a [q] key followed by a right arrow: the arrow is
    still handled and the loop stops. *)
Lemma quit_ends_the_loop_witness :
  let pg := Demo.pygame [] in
  let p := Presentation.mk [TextSlide ["one"%string]; TextSlide ["two"%string]] 0 in
  let st := Loop.mk p 800 600 true in
  let events := [Loop.KEYDOWN Loop.K_q; Loop.KEYDOWN Loop.K_RIGHT] in
  Loop.running st = true
  /\ existsb asks_to_quit events = true
  /\ Loop.running (fold_left Loop.handle events st) = false
  /\ Presentation._current_slide (Loop.pres (fold_left Loop.handle events st)) = 1.
Proof.
  intros pg p st events.
  assert (H1 : Loop.running st = true) by reflexivity.
  assert (H2 : existsb asks_to_quit events = true) by reflexivity.
  split; [exact H1|]. split; [exact H2|]. split; [|reflexivity].
  exact (proj1 (proj2 (quit_ends_the_loop 0 st events []) H1 H2)).
Defined.

(** X12 on a resize followed by a key. *)
Lemma last_resize_sets_the_size_witness :
  let pg := Demo.pygame [] in
  let st := Loop.mk (Presentation.mk [TextSlide ["one"%string]] 0) 800 600 true in
  let later := [Loop.KEYDOWN Loop.K_LEFT] in
  existsb is_resize later = false
  /\ Loop.screen_width
       (fold_left Loop.handle ([Loop.OTHER] ++ Loop.VIDEORESIZE 640 480 :: later) st)
     = 640.
Proof.
  intros pg st later.
  assert (H : existsb is_resize later = false) by reflexivity.
  split; [exact H|].
  exact (proj1 (proj2 (last_resize_sets_the_size st [Loop.OTHER] later 640 480 H))).
Defined.

(** ** More on text fitting *)

Section TextFitMore.
Context {pg : Pygame}.

(** Where the loop leaves, it leaves at the first size that overflows. *)
Lemma fit_loop_sound (strings : list string) (aw ah : spec_float) :
  strings <> [] ->
  forall (fuel : nat) (n m : Z),
    fit_loop fuel strings aw ah n = Some (Ok m) ->
    n <= m
    /\ overflows_at aw ah strings m = true
    /\ forall k, n <= k < m -> overflows_at aw ah strings k = false.
Proof.
  intros Hne. induction fuel as [|fuel IH]; intros n m H; [discriminate|].
  rewrite fit_loop_step in H by exact Hne.
  destruct (overflows_at aw ah strings n) eqn:E.
  - injection H as <-. split; [lia|]. split; [exact E|]. intros k Hk. lia.
  - apply IH in H as (Hle & Hat & Hbelow).
    split; [lia|]. split; [exact Hat|].
    intros k Hk. destruct (Z.eq_dec k n) as [->|]; [exact E | apply Hbelow; lia].
Qed.

Lemma fit_loop_empty (fuel : nat) (aw ah : spec_float) (n m : Z) :
  fit_loop fuel [] aw ah n <> Some (Ok m).
Proof. destruct fuel; discriminate. Qed.

(** More iterations do not change what the loop has returned. *)
Lemma fit_loop_more_fuel (strings : list string) (aw ah : spec_float) :
  forall (fuel fuel' : nat) (n : Z) (r : outcome Z),
    (fuel <= fuel')%nat ->
    fit_loop fuel strings aw ah n = Some r ->
    fit_loop fuel' strings aw ah n = Some r.
Proof.
  induction fuel as [|fuel IH]; intros fuel' n r Hle H; [discriminate|].
  destruct fuel' as [|fuel']; [lia|]. cbn [fit_loop] in *.
  destruct (max_width n strings); [|exact H].
  destruct (overflows aw ah (total_height n strings) a); [exact H|].
  apply IH; [lia | exact H].
Qed.

(** X13: a size that is returned is the right one.  Whenever
    draw_centered_text selects a size, there were lines, the size is not
    negative, the block overflows at the next size and fits at every size
    from 1 to the selected one, and running the loop longer selects the same
    size. *)
Theorem returned_size_is_sound (fuel : nat) (strings : list string)
    (screen_width screen_height : Z) (horizontal_padding vertical_padding : spec_float)
    (available_width available_height : spec_float) (selected : Z) :
  available screen_width horizontal_padding = Ok available_width ->
  available screen_height vertical_padding = Ok available_height ->
  draw_centered_text fuel strings screen_width screen_height
    horizontal_padding vertical_padding = Some (Ok selected) ->
  strings <> []
  /\ 0 <= selected
  /\ overflows_at available_width available_height strings (selected + 1) = true
  /\ (forall k, 1 <= k <= selected ->
        overflows_at available_width available_height strings k = false)
  /\ (forall fuel', (fuel <= fuel')%nat ->
        draw_centered_text fuel' strings screen_width screen_height
          horizontal_padding vertical_padding = Some (Ok selected)).
Proof.
  intros Haw Hah. unfold draw_centered_text. rewrite Haw, Hah. intros H.
  destruct (fit_loop fuel strings available_width available_height 1)
    as [[m|e]|] eqn:E; try discriminate.
  injection H as <-.
  assert (Hne : strings <> []).
  { intros ->. now apply fit_loop_empty in E. }
  destruct (fit_loop_sound strings _ _ Hne _ _ _ E) as (Hle & Hat & Hbelow).
  split; [exact Hne|]. split; [lia|].
  replace (m - 1 + 1) with m by lia.
  split; [exact Hat|]. split.
  - intros k Hk. apply Hbelow. lia.
  - intros fuel' Hfuel.
    now rewrite (fit_loop_more_fuel strings _ _ fuel fuel' 1 (Ok m) Hfuel E).
Qed.

End TextFitMore.

(** X13 for the lines [hello], [world] on a 100 by 100 screen: the size
    selected after 20 iterations is 16. *)
Lemma returned_size_is_sound_witness :
  let pg := Demo.pygame [] in
  let strings := ["hello"%string; "world"%string] in
  let space := S754_finite false 5629499534213120 (-46) in
  available 100 f0_1 = Ok space
  /\ draw_centered_text 20 strings 100 100 f0_1 f0_1 = Some (Ok 16)
  /\ overflows_at space space strings 17 = true
  /\ (forall fuel', (20 <= fuel')%nat ->
        draw_centered_text fuel' strings 100 100 f0_1 f0_1 = Some (Ok 16)).
Proof.
  intros pg strings space.
  assert (Hav : available 100 f0_1 = Ok space) by (vm_compute; reflexivity).
  assert (Hdraw : draw_centered_text (pg := pg) 20 strings 100 100 f0_1 f0_1
                  = Some (Ok 16)) by (vm_compute; reflexivity).
  split; [exact Hav|]. split; [exact Hdraw|].
  destruct (returned_size_is_sound (pg := pg) 20 strings 100 100 f0_1 f0_1 space space 16
              Hav Hav Hdraw) as (_ & _ & Hnext & _ & Hmore).
  split; [exact Hnext | exact Hmore].
Defined.

(** ** More on image fitting and on slides *)

Section ImageFitMore.
Context {pg : Pygame}.

Lemma half_floor (a : Z) : 0 <= a - 2 * (a / 2) <= 1.
Proof.
  pose proof (Z.div_mod a 2 ltac:(lia)) as Hdm.
  pose proof (Z.mod_pos_bound a 2 ltac:(lia)) as Hb. lia.
Qed.

(** X15: the image is centred to the pixel.  Whenever the function blits,
    the margin left of the scaled image and the margin right of it differ
    by at most one pixel, the right one being the larger, and so do the
    margins above and below. *)
Theorem image_is_centred (image : Surface) (screen_width screen_height : Z)
    (horizontal_padding vertical_padding : spec_float) (b : image_blit) :
  draw_centered_image_with_padding image screen_width screen_height
    horizontal_padding vertical_padding = Ok b ->
  let image_width := fst (get_size (scaled b)) in
  let image_height := snd (get_size (scaled b)) in
  let right := screen_width - (x b + image_width) in
  let below := screen_height - (y b + image_height) in
  0 <= right - x b <= 1 /\ 0 <= below - y b <= 1.
Proof.
  unfold draw_centered_image_with_padding. intros H.
  apply bind_Ok in H as (aw & _ & H).
  apply bind_Ok in H as (ah & _ & H).
  destruct (get_size image) as [ow oh].
  apply bind_Ok in H as (ar & _ & H).
  apply bind_Ok in H as (ratio & _ & H).
  apply bind_Ok in H as (size & _ & H).
  apply bind_Ok in H as (img & _ & H).
  destruct (get_size img) as [iw ih] eqn:Hsize.
  injection H as <-. cbn [scaled x y]. rewrite Hsize. cbn [fst snd].
  pose proof (half_floor (screen_width - iw)).
  pose proof (half_floor (screen_height - ih)). lia.
Qed.

(** X16: sizes that cannot be fit.  Once the available width and height
    are computed, an image whose height is 0 makes
    draw_centered_image_with_padding raise [ZeroDivisionError]; and with the
    padding 0.1 that [main] passes, so does a screen of height 0, for any
    image whose aspect ratio was computed. *)
Theorem zero_height_raises (image : Surface) (screen_width : Z) :
  (forall (screen_height : Z) (hp vp aw ah : spec_float),
      snd (get_size image) = 0 ->
      available screen_width hp = Ok aw ->
      available screen_height vp = Ok ah ->
      draw_centered_image_with_padding image screen_width screen_height hp vp
      = Raise ZeroDivisionError)
  /\ (forall aw ar : spec_float,
        available screen_width f0_1 = Ok aw ->
        int_truediv (fst (get_size image)) (snd (get_size image)) = Ok ar ->
        draw_centered_image_with_padding image screen_width 0 f0_1 f0_1
        = Raise ZeroDivisionError).
Proof.
  split.
  - intros sh hp vp aw ah Hzero Haw Hah.
    unfold draw_centered_image_with_padding. rewrite Haw, Hah. cbn [Py.bind].
    destruct (get_size image) as [ow oh]. cbn [snd] in Hzero. subst oh.
    reflexivity.
  - intros aw ar Haw Har.
    unfold draw_centered_image_with_padding. rewrite Haw. cbn [Py.bind].
    replace (available 0 f0_1) with (Ok (S754_zero false)) by (vm_compute; reflexivity).
    cbn [Py.bind]. destruct (get_size image) as [ow oh]. cbn [fst snd] in Har.
    rewrite Har. reflexivity.
Qed.

(** X17: an image takes precedence.  [set_image] succeeds exactly when
    pygame loads the path, and raises what the load raises; once it has
    succeeded, [get_content] returns the loaded image, also after
    [set_lines]; without an image, [get_content] returns the lines set
    last. *)
Theorem image_takes_precedence (slide : Slide.t) (path : Path) (lines : list string) :
  (forall image : Surface,
      image_load path = Ok image ->
      exists slide',
        Slide.set_image slide path = Ok slide'
        /\ Slide.get_content slide' = Slide.Image image
        /\ Slide.get_content (Slide.set_lines slide' lines) = Slide.Image image)
  /\ (forall e : exc, image_load path = Raise e -> Slide.set_image slide path = Raise e)
  /\ (Slide._image slide = None ->
      Slide.get_content (Slide.set_lines slide lines) = Slide.Lines lines)
  /\ Slide.get_content Slide.init = Slide.Lines [].
Proof.
  split; [|split; [|split]].
  - intros image H. unfold Slide.set_image. rewrite H. cbn [Py.bind].
    eexists. split; [reflexivity|]. split; reflexivity.
  - intros e H. unfold Slide.set_image. now rewrite H.
  - intros H. unfold Slide.get_content, Slide.set_lines. cbn. now rewrite H.
  - reflexivity.
Qed.

End ImageFitMore.

(** X15 for a 2 by 3 image on a 1000 by 1000 screen: 233 pixels left of the
    image and 234 right of it. *)
Lemma image_is_centred_witness :
  let pg := Demo.pygame [] in
  exists b,
    draw_centered_image_with_padding (2, 3) 1000 1000 f0_1 f0_1 = Ok b
    /\ x b = 233
    /\ 0 <= 1000 - (x b + fst (get_size (scaled b))) - x b <= 1.
Proof.
  intros pg.
  assert (E : draw_centered_image_with_padding (pg := pg) (2, 3) 1000 1000 f0_1 f0_1
              = Ok {| new_width := Int 533;
                      new_height := Float (S754_finite false 7036874417766400 (-43));
                      scaled := (533, 800); x := 233; y := 100 |})
    by (vm_compute; reflexivity).
  eexists. split; [exact E|]. split; [reflexivity|].
  exact (proj1 (image_is_centred (pg := pg) (2, 3) 1000 1000 f0_1 f0_1 _ E)).
Defined.

(** X16 for an image 3 wide and 0 high. *)
Lemma zero_height_raises_witness :
  let pg := Demo.pygame [] in
  let space := S754_finite false 5629499534213120 (-46) in
  snd (get_size ((3, 0) : Surface)) = 0
  /\ available 100 f0_1 = Ok space
  /\ draw_centered_image_with_padding (3, 0) 100 100 f0_1 f0_1 = Raise ZeroDivisionError.
Proof.
  intros pg space.
  assert (H0 : snd (get_size (Pygame := pg) (3, 0)) = 0) by reflexivity.
  assert (Hav : available 100 f0_1 = Ok space) by (vm_compute; reflexivity).
  split; [exact H0|]. split; [exact Hav|].
  exact (proj1 (zero_height_raises (pg := pg) (3, 0) 100) 100 f0_1 f0_1 space space
           H0 Hav Hav).
Defined.

(** X17 where [pic.png] is a 2 by 3 image. *)
Lemma image_takes_precedence_witness :
  let pg := Demo.pygame [("pic.png"%string, (2, 3))] in
  image_load (mkPath "pic.png") = Ok (2, 3)
  /\ exists slide',
       Slide.set_image Slide.init (mkPath "pic.png") = Ok slide'
       /\ Slide.get_content slide' = Slide.Image (2, 3)
       /\ Slide.get_content (Slide.set_lines slide' ["text"%string]) = Slide.Image (2, 3).
Proof.
  intros pg.
  assert (H : image_load (Pygame := pg) (mkPath "pic.png") = Ok (2, 3)) by reflexivity.
  split; [exact H|].
  exact (proj1 (image_takes_precedence (pg := pg) Slide.init (mkPath "pic.png")
                  ["text"%string]) (2, 3) H).
Defined.

(** ** The dimension that is cut off *)

Section CutOff.
Context {pg : Pygame}.

Lemma compare_Lt (a b : Z) : a < b -> (a ?= b) = Lt.
Proof. intros H. now apply Z.compare_lt_iff. Qed.

Lemma compare_Gt (a b : Z) : b < a -> (a ?= b) = Gt.
Proof. intros H. now apply Z.compare_gt_iff. Qed.

(** [int(f)] is [f] cut off toward zero. *)
Lemma int_of_float_cut_off (f : spec_float) (w : Z) :
  int_of_float f = Ok w -> cut_off w f.
Proof.
  unfold int_of_float, cut_off, int_float_compare.
  destruct f as [s|s| |s m e]; try discriminate.
  - intros H. injection H as <-. cbn. repeat split; intros; lia.
  - cbv zeta. change (Z.neg m) with (- Z.pos m).
    assert (Hm : 0 < Z.pos m) by lia.
    generalize dependent (Z.pos m). intros pm Hm.
    destruct (0 <=? e) eqn:He; intros H; injection H as <-.
    + apply Z.leb_le in He. rewrite Z.shiftl_mul_pow2 by exact He.
      assert (Hk : 0 < 2 ^ e) by (apply Z.pow_pos_nonneg; lia).
      generalize dependent (2 ^ e). intros k Hk.
      destruct s.
      * rewrite compare_Lt by nia. rewrite compare_Gt by nia.
        repeat split; intros Hw E; injection E as E.
        -- rewrite Z.compare_gt_iff in E. nia.
        -- rewrite Z.compare_lt_iff in E. nia.
      * rewrite compare_Lt by nia. rewrite compare_Gt by nia.
        repeat split; intros Hw E; injection E as E.
        -- rewrite Z.compare_gt_iff in E. nia.
        -- rewrite Z.compare_lt_iff in E. nia.
    + apply Z.leb_gt in He. rewrite Z.shiftr_div_pow2 by lia.
      assert (Hk : 0 < 2 ^ (- e)) by (apply Z.pow_pos_nonneg; lia).
      generalize dependent (2 ^ (- e)). intros k Hk.
      pose proof (Z.div_mod pm k ltac:(lia)) as Hdm.
      pose proof (Z.mod_pos_bound pm k Hk) as Hb.
      generalize dependent (pm mod k). generalize dependent (pm / k).
      intros a r Hdm Hb.
      destruct s.
      * rewrite compare_Lt by nia. rewrite compare_Gt by nia.
        repeat split; intros Hw E; injection E as E.
        -- rewrite Z.compare_gt_iff in E. nia.
        -- rewrite Z.compare_lt_iff in E. nia.
      * rewrite compare_Lt by nia. rewrite compare_Gt by nia.
        repeat split; intros Hw E; injection E as E.
        -- rewrite Z.compare_gt_iff in E. nia.
        -- rewrite Z.compare_lt_iff in E. nia.
Qed.

(** X18: the fitted size follows the aspect ratio up to the cut of
    [int()].  Whenever draw_centered_image_with_padding blits, one dimension
    of the size it scales to is the available one as it is, and the other
    is an integer less than 1 away from the float
    new_height * aspect_ratio (when fit to height) or
    new_width / aspect_ratio (when fit to width), never further from zero
    than it. *)
Theorem fitted_size_is_cut_off (image : Surface) (screen_width screen_height : Z)
    (horizontal_padding vertical_padding : spec_float) (b : image_blit) :
  draw_centered_image_with_padding image screen_width screen_height
    horizontal_padding vertical_padding = Ok b ->
  exists available_width available_height aspect_ratio ratio,
    available screen_width horizontal_padding = Ok available_width
    /\ available screen_height vertical_padding = Ok available_height
    /\ int_truediv (fst (get_size image)) (snd (get_size image)) = Ok aspect_ratio
    /\ float_truediv available_width available_height = Ok ratio
    /\ (if float_gt ratio aspect_ratio
        then new_height b = Float available_height
             /\ exists w, new_width b = Int w
                          /\ cut_off w (SF64mul available_height aspect_ratio)
        else new_width b = Float available_width
             /\ exists q h, float_truediv available_width aspect_ratio = Ok q
                            /\ new_height b = Int h
                            /\ cut_off h q).
Proof.
  unfold draw_centered_image_with_padding. intros H.
  apply bind_Ok in H as (aw & Haw & H).
  apply bind_Ok in H as (ah & Hah & H).
  destruct (get_size image) as [ow oh] eqn:Hsize.
  apply bind_Ok in H as (ar & Har & H).
  apply bind_Ok in H as (ratio & Hratio & H).
  apply bind_Ok in H as (size & Hfit & H).
  apply bind_Ok in H as (img & _ & H).
  destruct (get_size img) as [iw ih].
  injection H as <-. cbn [new_width new_height].
  exists aw, ah, ar, ratio.
  split; [exact Haw|]. split; [exact Hah|]. split; [exact Har|].
  split; [exact Hratio|].
  destruct (float_gt ratio ar).
  - apply bind_Ok in Hfit as (w & Hw & Hfit). injection Hfit as <-.
    split; [reflexivity|]. exists w. split; [reflexivity|].
    now apply int_of_float_cut_off.
  - apply bind_Ok in Hfit as (q & Hq & Hfit).
    apply bind_Ok in Hfit as (h & Hh & Hfit). injection Hfit as <-.
    split; [reflexivity|]. exists q, h. split; [exact Hq|].
    split; [reflexivity|]. now apply int_of_float_cut_off.
Qed.

End CutOff.

(** X18 for a 2 by 3 image on a 1000 by 1000 screen: the width 533 is the
    cut of 800.0 * 0.666..., a float between 533 and 534. *)
Lemma fitted_size_is_cut_off_witness :
  let pg := Demo.pygame [] in
  let product := SF64mul (S754_finite false 7036874417766400 (-43))
                         (S754_finite false 6004799503160661 (-53)) in
  exists b,
    draw_centered_image_with_padding (2, 3) 1000 1000 f0_1 f0_1 = Ok b
    /\ new_width b = Int 533
    /\ cut_off 533 product.
Proof.
  intros pg product.
  assert (E : draw_centered_image_with_padding (pg := pg) (2, 3) 1000 1000 f0_1 f0_1
              = Ok {| new_width := Int 533;
                      new_height := Float (S754_finite false 7036874417766400 (-43));
                      scaled := (533, 800); x := 233; y := 100 |})
    by (vm_compute; reflexivity).
  eexists. split; [exact E|]. split; [reflexivity|].
  destruct (fitted_size_is_cut_off (pg := pg) (2, 3) 1000 1000 f0_1 f0_1 _ E)
    as (aw & ah & ar & ratio & Haw & Hah & Har & Hratio & Hfit).
  vm_compute in Haw, Hah, Har.
  injection Haw as <-. injection Hah as <-. injection Har as <-.
  vm_compute in Hratio. injection Hratio as <-.
  match type of Hfit with
  | (if ?c then _ else _) => replace c with true in Hfit by (vm_compute; reflexivity)
  end.
  destruct Hfit as (_ & w & Hw & Hcut).
  cbn [new_width] in Hw. injection Hw as <-. exact Hcut.
Defined.
